(** * Hovden Musikklubb: the festival page, the admin panels and the
    membership form

  A shallow embedding of the two source files:

  - the festival programme page ([EventImage], [MusikkfestPage]);
  - [components/admin/EventManager.tsx], which holds the admin event
    manager ([EventManager]), the admin contact-message manager
    ([ContactMessages]) and the membership form ([MembershipForm]).

  JavaScript numbers are IEEE 754 binary64 values ([spec_float] with
  [prec = 53], [emax = 1024]); strings are [string]; the [editingNotes]
  object is a [gmap string string]; React component state is a record that
  the handlers read and write through a small state-and-exception monad
  which also threads the hosted backend, the user's answers to
  [window.confirm] and the trace of observable effects. *)

From Stdlib Require Import ZArith QArith Lia List String Ascii Sorted.
From Stdlib Require Import Floats.SpecFloat.
From stdpp Require Import gmap strings list fin_maps sorting pretty.

Local Open Scope Z_scope.
Local Open Scope string_scope.

(** ** JavaScript numbers *)

Module JSNumber.

Definition prec : Z := 53.
Definition emax : Z := 1024.

Abbreviation number := spec_float.

(** [naturalWidth] and [naturalHeight] are [unsigned long] attributes: the
    Number that JavaScript sees is the double with that integer value. *)
Definition of_ulong (n : Z) : number := binary_normalize prec emax n 0 false.

(** The operators [/], [<] and [>]. *)
Definition div (x y : number) : number := SFdiv prec emax x y.
Definition lt (x y : number) : bool := SFltb x y.
Definition gt (x y : number) : bool := SFltb y x.

(** The literals [1.7] and [0.8]: the doubles nearest to 17/10 and 8/10,
    0x1.b333333333333p+0 and 0x1.999999999999ap-1. *)
Definition lit_1_7 : number := S754_finite false 7656119366529843 (-52).
Definition lit_0_8 : number := S754_finite false 7205759403792794 (-53).

(** What a rounding location says about a remainder [r] of a division by
    [D]: where [r / D] lies with respect to one half. *)
Definition loc_sem (l : location) (r D : Z) : Prop :=
  match l with
  | loc_Exact => r = 0
  | loc_Inexact Lt => 0 < 2 * r < D
  | loc_Inexact Eq => 2 * r = D
  | loc_Inexact Gt => D < 2 * r < 2 * D
  end.

(** The last step of [binary_round_aux] for a positive result: shift once
    more when rounding carried into the next binade, then pack. *)
Definition finish (m e : Z) : number :=
  let '(mrs, e') := shr_fexp prec emax m e loc_Exact in
  match shr_m mrs with
  | Z0 => S754_zero false
  | Zpos p =>
      if Z.leb e' (emax - prec) then S754_finite false p e' else S754_infinity false
  | Zneg _ => S754_nan
  end.

End JSNumber.

(** ** The festival page: [EventImage] *)

Module EventImage.

(** The state type ['aspect-[16/9]' | 'aspect-[4/3]' | 'aspect-[3/4]']. *)
Inductive Aspect : Type := aspect_16_9 | aspect_4_3 | aspect_3_4.

Definition className (a : Aspect) : string :=
  match a with
  | aspect_16_9 => "aspect-[16/9]"
  | aspect_4_3 => "aspect-[4/3]"
  | aspect_3_4 => "aspect-[3/4]"
  end.

(** The part of [e.currentTarget] that the handler reads. *)
Record HTMLImageElement : Type :=
  { naturalWidth : Z; naturalHeight : Z }.

(** Both attributes are [unsigned long]. *)
Definition ulong (n : Z) : Prop := 0 <= n < 2 ^ 32.

(** Dimensions that give no positive ratio. *)
Definition malformed (img : HTMLImageElement) : Prop :=
  naturalWidth img <= 0 \/ naturalHeight img <= 0.

(** [useState('aspect-[4/3]')]. *)
Definition initial : Aspect := aspect_4_3.

(** [handleImageLoad]: the new value of [aspect]; each branch calls
    [setAspect], so the previous value is overwritten. *)
Definition handleImageLoad (img : HTMLImageElement) (aspect : Aspect) : Aspect :=
  let ratio :=
    JSNumber.div (JSNumber.of_ulong (naturalWidth img))
                 (JSNumber.of_ulong (naturalHeight img)) in
  if JSNumber.gt ratio JSNumber.lit_1_7 then aspect_16_9
  else if JSNumber.lt ratio JSNumber.lit_0_8 then aspect_3_4
  else aspect_4_3.

End EventImage.

(** ** Rows of the two tables *)

Module Event.

Inductive Status : Type := draft | published | cancelled.

(** Modelled from the spec: [Database['public']['Tables']['events']['Row']]
    is declared in [types/supabase], which is not among the sources.  The
    columns are those of the spec's data model; a column is nullable where
    the source treats it so ([description?.], [image_url || ''],
    [tickets_url || ''], [festival || ''], [ticket_price: null]). *)
Record t : Type := mk
  { id : string;
    title : string;
    description : option string;
    event_date : string;
    location : string;
    status : Status;
    image_url : option string;
    ticket_price : option JSNumber.number;
    tickets_url : option string;
    festival : option string }.

(** [Partial<Event>]: every key may be absent; a present key of a nullable
    column may hold [null]. *)
Record Partial : Type := mkPartial
  { p_title : option string;
    p_description : option (option string);
    p_event_date : option string;
    p_location : option string;
    p_status : option Status;
    p_image_url : option (option string);
    p_ticket_price : option (option JSNumber.number);
    p_tickets_url : option (option string);
    p_festival : option (option string) }.

Definition with_status (e : t) (s : Status) : t :=
  mk (id e) (title e) (description e) (event_date e) (location e) s
     (image_url e) (ticket_price e) (tickets_url e) (festival e).

(** The object literal [{ status: newStatus }]. *)
Definition only_status (s : Status) : Partial :=
  mkPartial None None None None (Some s) None None None None.

End Event.

(** ** Plain objects used as dictionaries

    The notes buffer of the message manager is a plain object
    ([{ [key: string]: string }], created by [{}] or by an object literal),
    so its prototype is [Object.prototype].  Its own properties hold
    strings; a key that it does not own is looked up in the prototype. *)

Module JSObject.

(** What reading a key can give. *)
Inductive Value : Type :=
| undefined
| text (s : string)
| prototype                 (* the object [Object.prototype], read through [__proto__] *)
| method (name : string).   (* the function [Object.prototype[name]] *)

(** The function-valued properties of [Object.prototype]. *)
Definition methods : list string :=
  ["constructor"; "hasOwnProperty"; "isPrototypeOf"; "propertyIsEnumerable";
   "toLocaleString"; "toString"; "valueOf";
   "__defineGetter__"; "__defineSetter__"; "__lookupGetter__"; "__lookupSetter__"].

(** [o[k]]: the own property, else the property of the prototype. *)
Definition get (o : gmap string string) (k : string) : Value :=
  match o !! k with
  | Some s => text s
  | None =>
      if String.eqb k "__proto__" then prototype
      else if existsb (String.eqb k) methods then method k
      else undefined
  end.

(** [o[k] = v] for a string [v].  Without an own property [__proto__] the
    assignment to that key calls the setter of [Object.prototype], which
    ignores a value that is neither an object nor null; every other key
    becomes an own property. *)
Definition assign (k v : string) (o : gmap string string) : gmap string string :=
  match o !! k with
  | Some _ => <[k := v]> o
  | None => if String.eqb k "__proto__" then o else <[k := v]> o
  end.

(** [{ ...o, [k]: v }]: a computed key defines an own property, whatever
    the key. *)
Definition define (k v : string) (o : gmap string string) : gmap string string :=
  <[k := v]> o.

Definition truthy (v : Value) : bool :=
  match v with
  | undefined => false
  | text s => negb (String.eqb s "")
  | prototype | method _ => true
  end.

(** [v || d]. *)
Definition or_else (v d : Value) : Value := if truthy v then v else d.

End JSObject.

Module ContactMessage.

Inductive MessageStatus : Type := new | in_progress | completed.

Record t : Type := mk
  { id : string;
    name : string;
    email : string;
    message : string;
    created_at : string;
    admin_notes : option string;
    status : MessageStatus }.

(** The objects passed to [update]: [{ status }] and
    [{ admin_notes: editingNotes[id] }].  [p_admin_notes] is the value that
    the object holds under [admin_notes], [undefined] when it has no such
    key. *)
Record Partial : Type := mkPartial
  { p_status : option MessageStatus;
    p_admin_notes : JSObject.Value }.

End ContactMessage.

(** ** The hosted backend *)

(** Modelled from the spec: the [supabase] client of [lib/supabase] and the
    backend behind it are not among the sources.  The spec describes the
    backend as a collaborator offering "row-level
    select/insert/update/delete/order/filter operations against two named
    tables".  The model is the row-level reading of the query-builder chains
    that the source issues: a filter keeps the rows whose column equals the
    value, [order] sorts by the instant a timestamp text denotes, [update]
    overwrites the columns present in the body on the rows the filter
    selects, [insert] appends rows and [delete] removes the selected rows.  A
    request may also fail: the response then carries an error and the tables
    stay as they were.  A body travels as JSON: a key whose value is
    [undefined] or a function is left out, and a value that is an object
    goes into a text column as its JSON text.  Among rows that [order]
    does not tell apart the model keeps the stored order; the backend
    promises none, and only the order of the sort key is relied on. *)

Module Supabase.

Definition Error : Type := string.

(** The object [{ data, error }] that an awaited query resolves to. *)
Record Response (A : Type) : Type := mkResponse
  { data : option A; error : option Error }.
Arguments mkResponse {A} _ _.
Arguments data {A} _.
Arguments error {A} _.

Record Tables : Type := mkTables
  { events : list Event.t;
    contact_messages : list ContactMessage.t;
    next_id : nat }.

(** The requests that the source issues. *)
Inductive Request : Type :=
| events_select (festival : option string)
    (* from('events').select('*')[.eq('festival', f)]
         .order('event_date', { ascending: true }) *)
| events_update (body : Event.Partial) (id : string)
    (* from('events').update(body).eq('id', id) *)
| events_insert (rows : list Event.Partial)
    (* from('events').insert(rows) *)
| events_delete (id : string)
    (* from('events').delete().eq('id', id) *)
| messages_select
    (* from('contact_messages').select('*')
         .order('created_at', { ascending: false }) *)
| messages_update (body : ContactMessage.Partial) (id : string)
    (* from('contact_messages').update(body).eq('id', id) *)
| messages_delete (id : string).
    (* from('contact_messages').delete().eq('id', id) *)

Definition patch_event (p : Event.Partial) (e : Event.t) : Event.t :=
  Event.mk (Event.id e)
    (default (Event.title e) (Event.p_title p))
    (default (Event.description e) (Event.p_description p))
    (default (Event.event_date e) (Event.p_event_date p))
    (default (Event.location e) (Event.p_location p))
    (default (Event.status e) (Event.p_status p))
    (default (Event.image_url e) (Event.p_image_url p))
    (default (Event.ticket_price e) (Event.p_ticket_price p))
    (default (Event.tickets_url e) (Event.p_tickets_url p))
    (default (Event.festival e) (Event.p_festival p)).

(** A new row: the columns of the body, defaults for absent ones. *)
Definition new_event (id : string) (p : Event.Partial) : Event.t :=
  patch_event p (Event.mk id "" None "" "" Event.draft None None None None).

Fixpoint insert_events (n : nat) (rows : list Event.Partial) : list Event.t :=
  match rows with
  | [] => []
  | p :: rest => new_event (pretty n) p :: insert_events (S n) rest
  end.

Definition patch_message (p : ContactMessage.Partial) (m : ContactMessage.t)
  : ContactMessage.t :=
  ContactMessage.mk (ContactMessage.id m) (ContactMessage.name m)
    (ContactMessage.email m) (ContactMessage.message m)
    (ContactMessage.created_at m)
    (match ContactMessage.p_admin_notes p with
     | JSObject.text notes => Some notes
     | JSObject.prototype => Some "{}"
     | JSObject.undefined | JSObject.method _ => ContactMessage.admin_notes m
     end)
    (default (ContactMessage.status m) (ContactMessage.p_status p)).

Definition festival_is (f : string) (e : Event.t) : bool :=
  match Event.festival e with
  | Some g => String.eqb g f
  | None => false
  end.

Section Ordering.

(** The instant that a timestamp text denotes, as the database reads it. *)
Variable instant : string -> Z.

Definition event_date_le (a b : Event.t) : Prop :=
  instant (Event.event_date a) <= instant (Event.event_date b).

Definition created_at_ge (a b : ContactMessage.t) : Prop :=
  instant (ContactMessage.created_at b) <= instant (ContactMessage.created_at a).

Definition event_date_le_dec (a b : Event.t) : Decision (event_date_le a b) :=
  Z_le_dec _ _.

Definition created_at_ge_dec (a b : ContactMessage.t) : Decision (created_at_ge a b) :=
  Z_le_dec _ _.

Definition order_by_event_date (rows : list Event.t) : list Event.t :=
  @merge_sort _ event_date_le event_date_le_dec rows.

Definition order_by_created_at_desc (rows : list ContactMessage.t)
  : list ContactMessage.t :=
  @merge_sort _ created_at_ge created_at_ge_dec rows.

Definition select_events (festival : option string) (t : Tables) : list Event.t :=
  order_by_event_date
    (match festival with
     | Some f => List.filter (festival_is f) (events t)
     | None => events t
     end).

Definition select_messages (t : Tables) : list ContactMessage.t :=
  order_by_created_at_desc (contact_messages t).

End Ordering.

Definition update_events (body : Event.Partial) (id : string) (t : Tables) : Tables :=
  mkTables
    (List.map (fun e => if String.eqb (Event.id e) id then patch_event body e else e)
              (events t))
    (contact_messages t) (next_id t).

Definition insert_into_events (rows : list Event.Partial) (t : Tables) : Tables :=
  mkTables (events t ++ insert_events (next_id t) rows)
           (contact_messages t) (next_id t + List.length rows)%nat.

Definition delete_events (id : string) (t : Tables) : Tables :=
  mkTables (List.filter (fun e => negb (String.eqb (Event.id e) id)) (events t))
           (contact_messages t) (next_id t).

Definition update_messages (body : ContactMessage.Partial) (id : string) (t : Tables)
  : Tables :=
  mkTables (events t)
    (List.map (fun m => if String.eqb (ContactMessage.id m) id
                        then patch_message body m else m)
              (contact_messages t))
    (next_id t).

Definition delete_messages (id : string) (t : Tables) : Tables :=
  mkTables (events t)
    (List.filter (fun m => negb (String.eqb (ContactMessage.id m) id))
                 (contact_messages t))
    (next_id t).

End Supabase.

(** ** Handlers as computations

    A handler runs against the component state [S] and the environment: the
    backend tables, the faults that the coming requests will meet (one entry
    per request, [Some err] for a failing one; none left means no fault),
    the answers the user will give to [confirm] dialogs (none left means
    the dialog is dismissed) and the trace of effects so far.  A computation
    completes normally or throws; state and environment changes made before
    a throw stay. *)

Module JS.

Inductive Effect : Type :=
| Query (r : Supabase.Request)
| ConsoleError (label : string) (err : Supabase.Error)
| ToastSuccess (msg : string)
| ToastError (msg : string)
| ConfirmDialog (msg : string)
| PreventDefault
| Navigate (href : string).

Record Env : Type := mkEnv
  { tables : Supabase.Tables;
    faults : list (option Supabase.Error);
    answers : list bool;
    log : list Effect }.

Inductive Completion (A : Type) : Type :=
| Normal (a : A)
| Throw (err : Supabase.Error).
Arguments Normal {A} _.
Arguments Throw {A} _.

Definition M (S A : Type) : Type := S -> Env -> Completion A * S * Env.

#[global] Instance M_ret {S : Type} : MRet (M S) :=
  fun A a s env => (Normal a, s, env).

#[global] Instance M_bind {S : Type} : MBind (M S) :=
  fun A B f m s env =>
    match m s env with
    | (Normal a, s', env') => f a s' env'
    | (Throw err, s', env') => (Throw err, s', env')
    end.

Section Primitives.

Context {S : Type}.

Definition throw {A : Type} (err : Supabase.Error) : M S A :=
  fun s env => (Throw err, s, env).

(** [try { body } catch (error) { handler error }]. *)
Definition try_catch {A : Type} (body : M S A) (handler : Supabase.Error -> M S A) : M S A :=
  fun s env =>
    match body s env with
    | (Normal a, s', env') => (Normal a, s', env')
    | (Throw err, s', env') => handler err s' env'
    end.

(** [try { body } finally { final }]. *)
Definition try_finally {A : Type} (body : M S A) (final : M S unit) : M S A :=
  fun s env =>
    match body s env with
    | (c, s', env') =>
        match final s' env' with
        | (Normal _, s'', env'') => (c, s'', env'')
        | (Throw err, s'', env'') => (Throw err, s'', env'')
        end
    end.

(** The values of the state variables that a handler closes over. *)
Definition get : M S S := fun s env => (Normal s, s, env).

(** A [setX(v)] call. *)
Definition set (f : S -> S) : M S unit := fun s env => (Normal tt, f s, env).

Definition emit (e : Effect) : M S unit :=
  fun s env =>
    (Normal tt, s, mkEnv (tables env) (faults env) (answers env) (log env ++ [e])).

Definition console_error (label : string) (err : Supabase.Error) : M S unit :=
  emit (ConsoleError label err).
Definition toast_success (msg : string) : M S unit := emit (ToastSuccess msg).
Definition toast_error (msg : string) : M S unit := emit (ToastError msg).

(** [confirm(msg)]: shows the dialog and returns the user's answer. *)
Definition confirm (msg : string) : M S bool :=
  fun s env =>
    (Normal (hd false (answers env)), s,
     mkEnv (tables env) (faults env) (tl (answers env)) (log env ++ [ConfirmDialog msg])).

(** An awaited query: the request is sent; under a fault the response is
    [{ data: null, error }] and the tables stay; otherwise the tables become
    [run t] and the response is [{ data: result t, error: null }]. *)
Definition query {A : Type} (r : Supabase.Request)
    (run : Supabase.Tables -> Supabase.Tables)
    (result : Supabase.Tables -> option A) : M S (Supabase.Response A) :=
  fun s env =>
    match hd None (faults env) with
    | Some err =>
        (Normal (Supabase.mkResponse None (Some err)), s,
         mkEnv (tables env) (tl (faults env)) (answers env) (log env ++ [Query r]))
    | None =>
        (Normal (Supabase.mkResponse (result (tables env)) None), s,
         mkEnv (run (tables env)) (tl (faults env)) (answers env) (log env ++ [Query r]))
    end.

(** [if (error) throw error]. *)
Definition throw_if_error {A : Type} (r : Supabase.Response A) : M S unit :=
  match Supabase.error r with
  | Some err => throw err
  | None => mret tt
  end.

Section Queries.

Variable instant : string -> Z.

Definition events_select (festival : option string)
  : M S (Supabase.Response (list Event.t)) :=
  query (Supabase.events_select festival) (fun t => t)
        (fun t => Some (Supabase.select_events instant festival t)).

Definition messages_select : M S (Supabase.Response (list ContactMessage.t)) :=
  query Supabase.messages_select (fun t => t)
        (fun t => Some (Supabase.select_messages instant t)).

End Queries.

Definition events_update (body : Event.Partial) (id : string)
  : M S (Supabase.Response unit) :=
  query (Supabase.events_update body id) (Supabase.update_events body id) (fun _ => None).

Definition events_insert (rows : list Event.Partial) : M S (Supabase.Response unit) :=
  query (Supabase.events_insert rows) (Supabase.insert_into_events rows) (fun _ => None).

Definition events_delete (id : string) : M S (Supabase.Response unit) :=
  query (Supabase.events_delete id) (Supabase.delete_events id) (fun _ => None).

Definition messages_update (body : ContactMessage.Partial) (id : string)
  : M S (Supabase.Response unit) :=
  query (Supabase.messages_update body id) (Supabase.update_messages body id)
        (fun _ => None).

Definition messages_delete (id : string) : M S (Supabase.Response unit) :=
  query (Supabase.messages_delete id) (Supabase.delete_messages id) (fun _ => None).

End Primitives.

(** The three components of a finished run. *)
Definition completion {S A : Type} (r : Completion A * S * Env) : Completion A :=
  fst (fst r).
Definition state {S A : Type} (r : Completion A * S * Env) : S := snd (fst r).
Definition env {S A : Type} (r : Completion A * S * Env) : Env := snd r.

(** The environment after one more effect. *)
Definition logged (e : Env) (x : Effect) : Env :=
  mkEnv (tables e) (faults e) (answers e) (log e ++ [x]).

(** [x || ''] on a nullable string. *)
Definition or_empty (x : option string) : string := default "" x.

(** Truthiness of a nullable string. *)
Definition truthy (x : option string) : bool :=
  match x with
  | Some s => negb (String.eqb s "")
  | None => false
  end.

End JS.

(** ** The festival page: [MusikkfestPage] *)

Module MusikkfestPage.

Import JS.

Record State : Type := mkState
  { events : list Event.t;
    loading : bool;
    selectedEvent : option Event.t }.

Definition initial : State := mkState [] true None.

Definition setEvents (v : list Event.t) : M State unit :=
  set (fun s => mkState v (loading s) (selectedEvent s)).
Definition setLoading (v : bool) : M State unit :=
  set (fun s => mkState (events s) v (selectedEvent s)).
Definition setSelectedEvent (v : option Event.t) : M State unit :=
  set (fun s => mkState (events s) (loading s) v).

Section Fetch.

Variable instant : string -> Z.

Definition fetchMusikkfestEvents : M State unit :=
  setLoading true ;;
  r ← events_select instant (Some "musikkfest") ;
  match Supabase.error r, Supabase.data r with
  | None, Some data => setEvents data
  | _, _ => mret tt
  end ;;
  setLoading false.

End Fetch.

(** What the page shows below the heading. *)
Inductive View : Type :=
| Loading                       (* "Laster program..." *)
| Empty                         (* "Ingen programinnslag funnet." *)
| Grid (cards : list Event.t).  (* one card per event, in this order *)

Definition render (s : State) : View :=
  if loading s then Loading
  else if Nat.eqb (List.length (events s)) 0 then Empty
  else Grid (List.filter (fun event => negb (String.eqb (Event.title event) "Grendedag"))
                         (events s)).

(** The events that have a card on the page. *)
Definition cards (v : View) : list Event.t :=
  match v with
  | Grid l => l
  | _ => []
  end.

(** [event.image_url && <EventImage .../>]. *)
Definition has_image (event : Event.t) : bool := truthy (Event.image_url event).

(** A click on a card opens the modal on that event; [onClose] closes it. *)
Definition onCardClick (event : Event.t) : M State unit := setSelectedEvent (Some event).
Definition onClose : M State unit := setSelectedEvent None.

(** [event.description?.split('\n')[0]]: the text of a description up to,
    and without, its first line feed; nothing when the description is null. *)
Fixpoint first_line (s : string) : string :=
  match s with
  | EmptyString => EmptyString
  | String c rest =>
      if Ascii.eqb c "010"%char then EmptyString else String c (first_line rest)
  end.

Definition card_description (event : Event.t) : option string :=
  first_line <$> Event.description event.

End MusikkfestPage.

(** ** The admin event manager: [EventManager] *)

Module EventManager.

Import JS.

Record State : Type := mkState
  { events : list Event.t;
    loading : bool;
    editingEvent : option Event.t;
    formData : Event.Partial }.

(** The object that [useState] starts the form with and that a save or a
    cancelled edit puts back. *)
Definition emptyForm : Event.Partial :=
  Event.mkPartial (Some "") (Some (Some "")) (Some "") (Some "")
                  (Some Event.draft) (Some (Some "")) (Some None)
                  (Some (Some "")) (Some (Some "")).

Definition initial : State := mkState [] true None emptyForm.

Definition setEvents (v : list Event.t) : M State unit :=
  set (fun s => mkState v (loading s) (editingEvent s) (formData s)).
Definition setLoading (v : bool) : M State unit :=
  set (fun s => mkState (events s) v (editingEvent s) (formData s)).
Definition setEditingEvent (v : option Event.t) : M State unit :=
  set (fun s => mkState (events s) (loading s) v (formData s)).
Definition setFormData (v : Event.Partial) : M State unit :=
  set (fun s => mkState (events s) (loading s) (editingEvent s) v).

Section Handlers.

Variable instant : string -> Z.

Definition fetchEvents : M State unit :=
  try_finally
    (try_catch
       (r ← events_select instant None ;
        throw_if_error r ;;
        setEvents (default [] (Supabase.data r)))
       (fun error =>
          console_error "Error fetching events:" error ;;
          toast_error "Kunne ikke hente arrangementer"))
    (setLoading false).

Definition handleSubmit : M State unit :=
  emit PreventDefault ;;
  s ← get ;
  try_catch
    (match editingEvent s with
     | Some editing =>
         r ← events_update (formData s) (Event.id editing) ;
         throw_if_error r ;;
         toast_success "Arrangement oppdatert"
     | None =>
         r ← events_insert [formData s] ;
         throw_if_error r ;;
         toast_success "Arrangement opprettet"
     end ;;
     setEditingEvent None ;;
     setFormData emptyForm ;;
     fetchEvents)
    (fun error =>
       console_error "Error saving event:" error ;;
       toast_error "Kunne ikke lagre arrangement").

Definition handleDelete (id : string) : M State unit :=
  ok ← confirm "Er du sikker på at du vil slette dette arrangementet?" ;
  if negb ok then mret tt
  else
    try_catch
      (r ← events_delete id ;
       throw_if_error r ;;
       toast_success "Arrangement slettet" ;;
       fetchEvents)
      (fun error =>
         console_error "Error deleting event:" error ;;
         toast_error "Kunne ikke slette arrangement").

Definition handleStatusChange (id : string) (newStatus : Event.Status) : M State unit :=
  s ← get ;
  try_catch
    (r ← events_update (Event.only_status newStatus) id ;
     throw_if_error r ;;
     setEvents
       (List.map (fun event =>
                    if String.eqb (Event.id event) id
                    then Event.with_status event newStatus
                    else event)
                 (events s)) ;;
     toast_success "Status oppdatert")
    (fun error =>
       console_error "Error updating event status:" error ;;
       toast_error "Kunne ikke oppdatere status").



(** [handleEdit].  The effect hook keyed on [editingEvent], which scrolls
    the window to the top after a render that holds another event object
    than the render before, is not embedded: events are values here, and
    whether two equal events are one object is not determined by them.  The
    trace has no entry for scrolling. *)
Definition handleEdit (event : Event.t) : M State unit :=
  setEditingEvent (Some event) ;;
  setFormData
    (Event.mkPartial
       (Some (Event.title event))
       (Some (Event.description event))
       (Some (Event.event_date event))
       (Some (Event.location event))
       (Some (Event.status event))
       (Some (Some (or_empty (Event.image_url event))))
       (Some (Event.ticket_price event))
       (Some (Some (or_empty (Event.tickets_url event))))
       (Some (Some (or_empty (Event.festival event))))).

(** The "Avbryt Redigering" button. *)
Definition cancelEdit : M State unit :=
  setEditingEvent None ;;
  setFormData emptyForm.

(** The [onChange] handlers of the form: [{ ...formData, key: value }].  For
    the date and the price the argument is the value that the handler has
    computed from the input text. *)
Inductive Change : Type :=
| change_title (v : string)
| change_description (v : string)
| change_event_date (v : string)
| change_location (v : string)
| change_image_url (v : string)
| change_ticket_price (v : option JSNumber.number)
| change_tickets_url (v : string)
| change_festival (v : string).

Definition changed (c : Change) (f : Event.Partial) : Event.Partial :=
  match c with
  | change_title v =>
      Event.mkPartial (Some v) (Event.p_description f) (Event.p_event_date f)
        (Event.p_location f) (Event.p_status f) (Event.p_image_url f)
        (Event.p_ticket_price f) (Event.p_tickets_url f) (Event.p_festival f)
  | change_description v =>
      Event.mkPartial (Event.p_title f) (Some (Some v)) (Event.p_event_date f)
        (Event.p_location f) (Event.p_status f) (Event.p_image_url f)
        (Event.p_ticket_price f) (Event.p_tickets_url f) (Event.p_festival f)
  | change_event_date v =>
      Event.mkPartial (Event.p_title f) (Event.p_description f) (Some v)
        (Event.p_location f) (Event.p_status f) (Event.p_image_url f)
        (Event.p_ticket_price f) (Event.p_tickets_url f) (Event.p_festival f)
  | change_location v =>
      Event.mkPartial (Event.p_title f) (Event.p_description f) (Event.p_event_date f)
        (Some v) (Event.p_status f) (Event.p_image_url f)
        (Event.p_ticket_price f) (Event.p_tickets_url f) (Event.p_festival f)
  | change_image_url v =>
      Event.mkPartial (Event.p_title f) (Event.p_description f) (Event.p_event_date f)
        (Event.p_location f) (Event.p_status f) (Some (Some v))
        (Event.p_ticket_price f) (Event.p_tickets_url f) (Event.p_festival f)
  | change_ticket_price v =>
      Event.mkPartial (Event.p_title f) (Event.p_description f) (Event.p_event_date f)
        (Event.p_location f) (Event.p_status f) (Event.p_image_url f)
        (Some v) (Event.p_tickets_url f) (Event.p_festival f)
  | change_tickets_url v =>
      Event.mkPartial (Event.p_title f) (Event.p_description f) (Event.p_event_date f)
        (Event.p_location f) (Event.p_status f) (Event.p_image_url f)
        (Event.p_ticket_price f) (Some (Some v)) (Event.p_festival f)
  | change_festival v =>
      Event.mkPartial (Event.p_title f) (Event.p_description f) (Event.p_event_date f)
        (Event.p_location f) (Event.p_status f) (Event.p_image_url f)
        (Event.p_ticket_price f) (Event.p_tickets_url f) (Some (Some v))
  end.

Definition onChange (c : Change) : M State unit :=
  s ← get ;
  setFormData (changed c (formData s)).

(** What the admin can make the component do. *)
Inductive Action : Type :=
| Mount                                         (* useEffect(fetchEvents, []) *)
| Submit
| Delete (id : string)
| StatusChange (id : string) (newStatus : Event.Status)
| Edit (event : Event.t)
| CancelEdit
| FormChange (c : Change).

Definition perform (a : Action) : M State unit :=
  match a with
  | Mount => fetchEvents
  | Submit => handleSubmit
  | Delete id => handleDelete id
  | StatusChange id newStatus => handleStatusChange id newStatus
  | Edit event => handleEdit event
  | CancelEdit => cancelEdit
  | FormChange c => onChange c
  end.

(** A session: the actions one after the other.  No handler lets an
    exception escape, so the session goes on after each of them. *)
Fixpoint session (actions : list Action) (s : State) (e : Env) : State * Env :=
  match actions with
  | [] => (s, e)
  | a :: rest =>
      let r := perform a s e in
      session rest (state r) (env r)
  end.

End Handlers.

(** The rows of the "Arrangementer" list: [events.map(...)] once the
    component is past [if (loading) return ...]. *)
Definition rendered (s : State) : list Event.t :=
  if loading s then [] else events s.

(** Every key of the form object is present. *)
Definition full (f : Event.Partial) : Prop :=
  is_Some (Event.p_title f) /\ is_Some (Event.p_description f) /\
  is_Some (Event.p_event_date f) /\ is_Some (Event.p_location f) /\
  is_Some (Event.p_status f) /\ is_Some (Event.p_image_url f) /\
  is_Some (Event.p_ticket_price f) /\ is_Some (Event.p_tickets_url f) /\
  is_Some (Event.p_festival f).

(** A save request carries all nine columns; the only other update is the
    status-only one of the inline selector. *)
Definition carries_all_columns (x : Effect) : Prop :=
  match x with
  | Query (Supabase.events_update body _) =>
      full body \/ exists newStatus, body = Event.only_status newStatus
  | Query (Supabase.events_insert rows) => exists body, rows = [body] /\ full body
  | _ => True
  end.

(** A stored row once the columns of [event], as [handleEdit] copies them
    into the form, have been written over it: the row keeps its id, and a null
    [image_url], [tickets_url] or [festival] of [event] arrives as ['']. *)
Definition overwritten (event row : Event.t) : Event.t :=
  Event.mk (Event.id row) (Event.title event) (Event.description event)
    (Event.event_date event) (Event.location event) (Event.status event)
    (Some (or_empty (Event.image_url event))) (Event.ticket_price event)
    (Some (or_empty (Event.tickets_url event)))
    (Some (or_empty (Event.festival event))).

End EventManager.

(** ** The admin contact-message manager: [ContactMessages] *)

Module ContactMessages.

Import JS.

Record State : Type := mkState
  { messages : list ContactMessage.t;
    loading : bool;
    editingNotes : gmap string string }.

Definition initial : State := mkState [] true ∅.

Definition setMessages (v : list ContactMessage.t) : M State unit :=
  set (fun s => mkState v (loading s) (editingNotes s)).
Definition setLoading (v : bool) : M State unit :=
  set (fun s => mkState (messages s) v (editingNotes s)).
Definition setEditingNotes (v : gmap string string) : M State unit :=
  set (fun s => mkState (messages s) (loading s) v).

(** [data?.forEach(message => { notesState[message.id] = message.admin_notes || '' })]
    on a fresh object. *)
Definition notesState (data : option (list ContactMessage.t)) : gmap string string :=
  fold_left
    (fun notes message =>
       JSObject.assign (ContactMessage.id message)
                       (or_empty (ContactMessage.admin_notes message)) notes)
    (default [] data) ∅.

Section Handlers.

Variable instant : string -> Z.

Definition fetchMessages : M State unit :=
  try_finally
    (try_catch
       (r ← messages_select instant ;
        throw_if_error r ;;
        setEditingNotes (notesState (Supabase.data r)) ;;
        setMessages (default [] (Supabase.data r)))
       (fun error =>
          console_error "Error fetching messages:" error ;;
          toast_error "Could not fetch messages"))
    (setLoading false).

Definition updateStatus (id : string) (status : ContactMessage.MessageStatus)
  : M State unit :=
  try_catch
    (r ← messages_update (ContactMessage.mkPartial (Some status) JSObject.undefined) id ;
     throw_if_error r ;;
     toast_success "Status updated" ;;
     fetchMessages)
    (fun error =>
       console_error "Error updating status:" error ;;
       toast_error "Could not update status").

Definition updateAdminNotes (id : string) : M State unit :=
  s ← get ;
  try_catch
    (r ← messages_update
           (ContactMessage.mkPartial None (JSObject.get (editingNotes s) id)) id ;
     throw_if_error r ;;
     toast_success "Notes updated" ;;
     fetchMessages)
    (fun error =>
       console_error "Error updating notes:" error ;;
       toast_error "Could not update notes").

Definition deleteMessage (id : string) : M State unit :=
  ok ← confirm "Er du sikker på at du vil slette denne meldingen?" ;
  if negb ok then mret tt
  else
    try_catch
      (r ← messages_delete id ;
       throw_if_error r ;;
       toast_success "Melding slettet" ;;
       fetchMessages)
      (fun error =>
         console_error "Error deleting message:" error ;;
         toast_error "Kunne ikke slette melding").

End Handlers.

(** The [onChange] handler of a message's notes field:
    [{ ...editingNotes, [message.id]: value }]. *)
Definition onNotesChange (id value : string) : M State unit :=
  s ← get ;
  setEditingNotes (JSObject.define id value (editingNotes s)).

(** The text that a fetch puts into the notes buffer for a message. *)
Definition stored_note (m : ContactMessage.t) : string :=
  or_empty (ContactMessage.admin_notes m).

(** The value given to the notes field of a message:
    [editingNotes[message.id] || '']. *)
Definition notesField (s : State) (id : string) : JSObject.Value :=
  JSObject.or_else (JSObject.get (editingNotes s) id) (JSObject.text "").

Section Actions.

Variable instant : string -> Z.
Variable encodeURIComponent : string -> string.

Definition handleReply (email name : string) : M State unit :=
  let subject := "Re: Henvendelse fra " +:+ name +:+ " - Hovden Musikklubb" in
  emit (Navigate ("mailto:" +:+ email +:+ "?subject=" +:+ encodeURIComponent subject)).

(** What the admin can make the component do. *)
Inductive Action : Type :=
| Mount                                         (* useEffect(fetchMessages, []) *)
| UpdateStatus (id : string) (status : ContactMessage.MessageStatus)
| UpdateAdminNotes (id : string)
| Delete (id : string)
| Reply (email name : string)
| NotesChange (id value : string).

Definition perform (a : Action) : M State unit :=
  match a with
  | Mount => fetchMessages instant
  | UpdateStatus id status => updateStatus instant id status
  | UpdateAdminNotes id => updateAdminNotes instant id
  | Delete id => deleteMessage instant id
  | Reply email name => handleReply email name
  | NotesChange id value => onNotesChange id value
  end.

End Actions.

Section Session.

Variable instant : string -> Z.
Variable encodeURIComponent : string -> string.

(** A session: the actions one after the other.  No handler lets an
    exception escape, so the session goes on after each of them. *)
Fixpoint session (actions : list Action) (s : State) (e : Env) : State * Env :=
  match actions with
  | [] => (s, e)
  | a :: rest =>
      let r := perform instant encodeURIComponent a s e in
      session rest (state r) (env r)
  end.

End Session.

End ContactMessages.

(** ** The membership form: [MembershipForm] *)

Module MembershipForm.

Import JS.

Definition AGE_GROUPS : list string :=
  ["Under 18"; "18-25"; "26-35"; "36-60"; "Over 60"].

Definition MUSIC_GENRES : list string :=
  ["Rock"; "Jazz"; "Classical"; "Electronic"; "Folk"; "Pop"; "Metal"; "Hip Hop";
   "Blues"; "World Music"].

Record FormData : Type := mkFormData
  { name : string;
    email : string;
    phone : string;
    location : string;
    ageGroup : string;
    motivation : string }.

Record State : Type := mkState
  { formData : FormData;
    submitted : bool;
    submitting : bool }.

Definition emptyForm : FormData := mkFormData "" "" "" "" "" "".

Definition initial : State := mkState emptyForm false false.

Definition setFormData (v : FormData) : M State unit :=
  set (fun s => mkState v (submitted s) (submitting s)).
Definition setSubmitted (v : bool) : M State unit :=
  set (fun s => mkState (formData s) v (submitting s)).
Definition setSubmitting (v : bool) : M State unit :=
  set (fun s => mkState (formData s) (submitted s) v).

Definition checkout_url : string :=
  "https://event.checkin.no/139486/medlemskap-2025?fbclid=IwY2xjawLXSCRleHRuA2FlbQIxMABicmlkETFEbUFTOWNCZm9xSG9BOTlFAR5ngijSdRJ2Kfi2XKvhspY8HmCkfC0VMFcmgS2L1bf0TxfXalIxIw6o4tGhkw_aem_RvErzvAQ4nDpV1uu_VUUAA".

(** The store action [submitMembershipForm] lives in [stores/formStore],
    outside the two files: it is a parameter.  It gets the form data, may act
    on the backend and leave effects, and its promise either resolves
    ([Normal]) or rejects ([Throw]); it cannot touch the component state. *)
Definition StoreAction : Type := FormData -> Env -> Completion unit * Env.

(** [await submitMembershipForm(formData)]. *)
Definition await_action (action : StoreAction) (data : FormData) : M State unit :=
  fun s e => let '(c, e') := action data e in (c, s, e').

Definition handleSubmit (submitMembershipForm : StoreAction) : M State unit :=
  s ← get ;
  emit PreventDefault ;;
  setSubmitting true ;;
  await_action submitMembershipForm (formData s) ;;
  setFormData emptyForm ;;
  setSubmitted true ;;
  emit (Navigate checkout_url).

(** *** The controls of the form and their constraint validation

    The JSX gives each control a type and, for four of them, the [required]
    attribute.  A form is submitted, and its [onSubmit] handler called, only
    when every control satisfies its constraints: a required control must
    have a non-empty value and an [email] input with a non-empty value must
    hold a valid e-mail address. *)

Inductive Control : Type :=
| input_text | input_email | input_tel | select_one | textarea.

Record Field : Type := mkField
  { control : Control; required : bool; value : string }.

Definition fields (f : FormData) : list Field :=
  [ mkField input_text true (name f);
    mkField input_email true (email f);
    mkField input_tel false (phone f);
    mkField input_text true (location f);
    mkField select_one true (ageGroup f);
    mkField textarea false (motivation f) ].

Definition is_digit (c : ascii) : bool :=
  let n := nat_of_ascii c in ((48 <=? n) && (n <=? 57))%nat.

Definition is_alpha (c : ascii) : bool :=
  let n := nat_of_ascii c in
  (((65 <=? n) && (n <=? 90)) || ((97 <=? n) && (n <=? 122)))%nat.

Definition is_alnum (c : ascii) : bool := is_alpha c || is_digit c.

(** The characters of the local part: letters, digits, the listed
    punctuation and the dot. *)
Definition is_local_char (c : ascii) : bool :=
  is_alnum c
  || existsb (Ascii.eqb c) (list_ascii_of_string ".!#$%&'*+/=?^_`{|}~-").

Fixpoint split_on (sep : ascii) (s : list ascii) : list (list ascii) :=
  match s with
  | [] => [[]]
  | c :: rest =>
      if Ascii.eqb c sep then [] :: split_on sep rest
      else match split_on sep rest with
           | seg :: segs => (c :: seg) :: segs
           | [] => [[c]]
           end
  end.

(** A domain label: 1 to 63 letters, digits and hyphens, no hyphen first or
    last. *)
Definition valid_label (l : list ascii) : bool :=
  ((1 <=? List.length l) && (List.length l <=? 63))%nat
  && forallb (fun c => is_alnum c || Ascii.eqb c "-"%char) l
  && is_alnum (hd "-"%char l)
  && is_alnum (List.last l "-"%char).

(** A valid e-mail address in the sense of the HTML standard. *)
Definition valid_email (s : string) : bool :=
  match split_on "@"%char (list_ascii_of_string s) with
  | [local; domain] =>
      negb (Nat.eqb (List.length local) 0)
      && forallb is_local_char local
      && forallb valid_label (split_on "."%char domain)
  | _ => false
  end.

Definition valueMissing (f : Field) : bool :=
  required f && String.eqb (value f) "".

Definition typeMismatch (f : Field) : bool :=
  match control f with
  | input_email => negb (String.eqb (value f) "") && negb (valid_email (value f))
  | _ => false
  end.

Definition checkValidity (f : FormData) : bool :=
  forallb (fun c => negb (valueMissing c) && negb (typeMismatch c)) (fields f).

(** All four required fields hold some text. *)
Definition required_filled (f : FormData) : Prop :=
  name f <> "" /\ email f <> "" /\ location f <> "" /\ ageGroup f <> "".

(** The user asks for submission (the "Fullfør innmelding" button, or the
    Enter key in a field).  The button is [disabled] while [submitting];
    otherwise the controls are validated and, when they are all valid, the
    form's [onSubmit] handler runs. *)
Definition submit (submitMembershipForm : StoreAction) : M State unit :=
  s ← get ;
  if submitting s then mret tt
  else if checkValidity (formData s) then handleSubmit submitMembershipForm
  else mret tt.

End MembershipForm.

(** * Properties *)

(** ** Division and comparison of doubles

    What [SFdiv] and [SFltb] compute for the operands of the aspect
    classifier: the quotient of two 32-bit integers is a normal double
    within half a unit in the last place of the exact quotient, which is
    enough to decide its comparison with 1.7 and 0.8. *)

Module JSNumberFacts.

Import JSNumber.
Local Open Scope Z_scope.

Lemma digits2_log2 (p : positive) : Z.pos (digits2_pos p) = Z.log2 (Z.pos p) + 1.
Proof.
  induction p as [p IH|p IH|]; cbn [digits2_pos]; try reflexivity.
  - rewrite Pos2Z.inj_succ, IH, Pos2Z.inj_xI, Z.log2_succ_double; lia.
  - rewrite Pos2Z.inj_succ, IH, Pos2Z.inj_xO, Z.log2_double; lia.
Qed.

Lemma Zdigits2_range (x k : Z) :
  0 < k -> 2 ^ (k - 1) <= x < 2 ^ k -> Zdigits2 x = k.
Proof.
  intros Hk [Hlo Hhi].
  assert (0 < 2 ^ (k - 1)) by (apply Z.pow_pos_nonneg; lia).
  destruct x as [|p|p]; try lia.
  unfold Zdigits2. rewrite digits2_log2.
  assert (Hlog : Z.log2 (Z.pos p) = k - 1).
  { apply Z.log2_unique; [lia|].
    replace (Z.succ (k - 1)) with k by lia. lia. }
  lia.
Qed.

Lemma shr_fexp_keep (mx e : Z) (l : location) :
  2 ^ 52 <= mx < 2 ^ 53 -> -1074 <= e ->
  shr_fexp prec emax mx e l = (shr_record_of_loc mx l, e).
Proof.
  intros Hm He. unfold shr_fexp.
  rewrite (Zdigits2_range mx 53) by lia.
  replace (fexp prec emax (53 + e) - e) with 0
    by (unfold fexp, emin, prec, emax; lia).
  reflexivity.
Qed.

Lemma shr_fexp_one (mx e : Z) (l : location) :
  2 ^ 53 <= mx < 2 ^ 54 -> -1074 <= e ->
  shr_fexp prec emax mx e l = (shr_1 (shr_record_of_loc mx l), e + 1).
Proof.
  intros Hm He. unfold shr_fexp.
  rewrite (Zdigits2_range mx 54) by lia.
  replace (fexp prec emax (54 + e) - e) with 1
    by (unfold fexp, emin, prec, emax; lia).
  reflexivity.
Qed.

Lemma shr_1_pos (m : Z) (r s : bool) :
  2 <= m ->
  shr_1 (Build_shr_record m r s) = Build_shr_record (m / 2) (Z.odd m) (r || s).
Proof.
  intros Hm. destruct m as [|p|p]; try lia.
  destruct p as [p|p|]; try lia; unfold shr_1.
  - f_equal. rewrite Pos2Z.inj_xI.
    apply (Z.div_unique _ _ _ 1); lia.
  - f_equal. rewrite Pos2Z.inj_xO.
    apply (Z.div_unique _ _ _ 0); lia.
Qed.

Lemma loc_of_record_of (m : Z) (l : location) :
  loc_of_shr_record (shr_record_of_loc m l) = l /\ shr_m (shr_record_of_loc m l) = m.
Proof. destruct l as [|[]]; split; reflexivity. Qed.

Lemma new_location_sem (D r : Z) :
  0 <= r < D -> loc_sem (new_location D r) r D.
Proof.
  intros Hr. unfold new_location.
  destruct (Z.even D) eqn:HD.
  - unfold new_location_even. destruct (Z.eqb_spec r 0) as [->|Hne]; [reflexivity|].
    destruct (Z.compare_spec (2 * r) D); simpl; lia.
  - unfold new_location_odd. destruct (Z.eqb_spec r 0) as [->|Hne]; [reflexivity|].
    assert (Hodd : Z.odd D = true) by (rewrite <- Z.negb_even, HD; reflexivity).
    apply Z.odd_spec in Hodd. destruct Hodd as [k Hk].
    destruct (Z.compare_spec (2 * r + 1) D); simpl; lia.
Qed.

Lemma rne_bound (mx r D : Z) (l : location) :
  0 < D -> 0 <= r < D -> loc_sem l r D ->
  mx <= round_nearest_even mx l <= mx + 1 /\
  (2 * round_nearest_even mx l - 1) * D <= 2 * (mx * D + r)
    <= (2 * round_nearest_even mx l + 1) * D.
Proof.
  intros HD Hr Hl. destruct l as [|[]]; simpl in *.
  - subst r. nia.
  - destruct (Z.even mx); nia.
  - nia.
  - nia.
Qed.

Lemma shift_loc (mx r D : Z) (l : location) :
  2 <= mx -> 0 < D -> 0 <= r < D -> loc_sem l r D ->
  shr_m (shr_1 (shr_record_of_loc mx l)) = mx / 2 /\
  loc_sem (loc_of_shr_record (shr_1 (shr_record_of_loc mx l)))
          (mx mod 2 * D + r) (2 * D) /\
  mx * D + r = mx / 2 * (2 * D) + (mx mod 2 * D + r) /\
  0 <= mx mod 2 * D + r < 2 * D.
Proof.
  intros Hm HD Hr Hl.
  pose proof (Z.div_mod mx 2 ltac:(lia)) as Hdm.
  pose proof (Zmod_odd mx) as Hodd.
  assert (Hsh : forall b s, shr_1 (Build_shr_record mx b s)
                 = Build_shr_record (mx / 2) (Z.odd mx) (b || s))
    by (intros; apply shr_1_pos; exact Hm).
  destruct l as [|[]]; simpl in Hl; unfold shr_record_of_loc; rewrite Hsh;
    destruct (Z.odd mx); simpl; repeat split; nia.
Qed.

Lemma binary_round_aux_finish (mx ex : Z) (lx : location) :
  binary_round_aux prec emax false mx ex lx =
  finish (round_nearest_even (shr_m (fst (shr_fexp prec emax mx ex lx)))
            (loc_of_shr_record (fst (shr_fexp prec emax mx ex lx))))
         (snd (shr_fexp prec emax mx ex lx)).
Proof.
  unfold binary_round_aux, finish.
  destruct (shr_fexp prec emax mx ex lx) as [mrs e']. reflexivity.
Qed.

Lemma finish_spec (m e : Z) :
  2 ^ 52 <= m <= 2 ^ 53 -> -1074 <= e <= 970 ->
  exists p j, finish m e = S754_finite false p (e + j) /\
              2 ^ 52 <= Z.pos p < 2 ^ 53 /\
              ((j = 0 /\ Z.pos p = m) \/ (j = 1 /\ m = 2 ^ 53 /\ Z.pos p = 2 ^ 52)).
Proof.
  intros Hm He. unfold finish.
  destruct (Z.eq_dec m (2 ^ 53)) as [->|Hne].
  - rewrite shr_fexp_one by lia.
    unfold shr_record_of_loc. rewrite shr_1_pos by lia.
    cbn [shr_m].
    replace (2 ^ 53 / 2) with (Z.pos 4503599627370496) by reflexivity.
    replace (e + 1 <=? emax - prec) with true
      by (symmetry; apply Z.leb_le; unfold emax, prec; lia).
    exists 4503599627370496%positive, 1. split; [reflexivity|]. split; [lia|].
    right. repeat split; reflexivity.
  - rewrite shr_fexp_keep by lia.
    destruct m as [|p|p]; try lia. cbn [shr_record_of_loc shr_m].
    replace (e <=? emax - prec) with true
      by (symmetry; apply Z.leb_le; unfold emax, prec; lia).
    exists p, 0. rewrite Z.add_0_r. split; [reflexivity|]. split; [lia|].
    left. split; reflexivity.
Qed.

Lemma round_spec (q r D e : Z) :
  2 ^ 52 <= q < 2 ^ 54 -> 0 < D -> 0 <= r < D -> -1074 <= e <= 968 ->
  exists p j,
    binary_round_aux prec emax false q e (new_location D r) = S754_finite false p (e + j) /\
    2 ^ 52 <= Z.pos p < 2 ^ 53 /\ 0 <= j <= 2 /\
    (2 * Z.pos p - 1) * D * 2 ^ j <= 2 * (q * D + r) <= (2 * Z.pos p + 1) * D * 2 ^ j.
Proof.
  intros Hq HD Hr He.
  pose proof (new_location_sem D r Hr) as Hl.
  rewrite binary_round_aux_finish.
  destruct (Z_lt_ge_dec q (2 ^ 53)) as [Hlt|Hge].
  - rewrite shr_fexp_keep by lia. cbn [fst snd].
    destruct (loc_of_record_of q (new_location D r)) as [-> ->].
    destruct (rne_bound q r D _ HD Hr Hl) as [Hm Hb].
    destruct (finish_spec (round_nearest_even q (new_location D r)) e) as (p & j & -> & Hp & Hj);
      [lia|lia|].
    exists p, j. split; [reflexivity|]. split; [exact Hp|].
    destruct Hj as [[-> Hpm]|(-> & Hm53 & Hp52)].
    + rewrite Hpm. change (2 ^ 0) with 1. lia.
    + rewrite Hm53 in Hb. rewrite Hp52. change (2 ^ 1) with 2. lia.
  - rewrite shr_fexp_one by lia. cbn [fst snd].
    destruct (shift_loc q r D (new_location D r)) as (Hsm & Hl' & Heq & Hr'); try lia; try assumption.
    rewrite Hsm.
    assert (Hq2 : 2 ^ 52 <= q / 2 < 2 ^ 53).
    { pose proof (Z.div_mod q 2 ltac:(lia)). pose proof (Z.mod_pos_bound q 2 ltac:(lia)). lia. }
    destruct (rne_bound (q / 2) (q mod 2 * D + r) (2 * D) _ ltac:(lia) Hr' Hl') as [Hm Hb].
    destruct (finish_spec (round_nearest_even (q / 2)
               (loc_of_shr_record (shr_1 (shr_record_of_loc q (new_location D r))))) (e + 1))
      as (p & j & -> & Hp & Hj); [lia|lia|].
    exists p, (1 + j). split; [f_equal; lia|]. split; [exact Hp|].
    rewrite Heq.
    destruct Hj as [[-> Hpm]|(-> & Hm53 & Hp52)].
    + rewrite Hpm. change (2 ^ (1 + 0)) with 2. lia.
    + rewrite Hm53 in Hb. rewrite Hp52. change (2 ^ (1 + 1)) with 4. lia.
Qed.

Lemma div_finite_spec (m1 m2 : positive) (e1 e2 : Z) :
  2 ^ 52 <= Z.pos m1 < 2 ^ 53 -> 2 ^ 52 <= Z.pos m2 < 2 ^ 53 ->
  -1021 <= e1 - e2 <= 1021 ->
  exists p j,
    div (S754_finite false m1 e1) (S754_finite false m2 e2)
      = S754_finite false p (e1 - e2 - 53 + j) /\
    2 ^ 52 <= Z.pos p < 2 ^ 53 /\ 0 <= j <= 2 /\
    (2 * Z.pos p - 1) * Z.pos m2 * 2 ^ j <= 2 * (Z.pos m1 * 2 ^ 53)
      <= (2 * Z.pos p + 1) * Z.pos m2 * 2 ^ j.
Proof.
  intros H1 H2 He. unfold div, SFdiv, SFdiv_core_binary.
  rewrite (Zdigits2_range (Z.pos m1) 53), (Zdigits2_range (Z.pos m2) 53) by lia.
  replace (Z.min (fexp prec emax (53 + e1 - (53 + e2))) (e1 - e2)) with (e1 - e2 - 53)
    by (unfold fexp, emin, prec, emax; lia).
  replace (e1 - e2 - (e1 - e2 - 53)) with 53 by lia.
  rewrite Z.shiftl_mul_pow2 by lia.
  pose proof (Z_div_mod (Z.pos m1 * 2 ^ 53) (Z.pos m2) ltac:(lia)) as Hdm.
  destruct (Z.div_eucl (Z.pos m1 * 2 ^ 53) (Z.pos m2)) as [q r].
  destruct Hdm as [Hdm Hr]. cbn [xorb].
  assert (Hq : 2 ^ 52 <= q < 2 ^ 54) by nia.
  destruct (round_spec q r (Z.pos m2) (e1 - e2 - 53) Hq ltac:(lia) Hr ltac:(lia))
    as (p & j & Hres & Hp & Hj & Hb).
  exists p, j. split; [exact Hres|]. split; [exact Hp|]. split; [exact Hj|].
  rewrite Hdm. replace (Z.pos m2 * q + r) with (q * Z.pos m2 + r) by lia. exact Hb.
Qed.

Lemma pos_iter_xO (p q : positive) : Z.pos (Pos.iter xO p q) = Z.pos p * 2 ^ Z.pos q.
Proof.
  rewrite <- Z.shiftl_mul_pow2 by lia. cbn [Z.shiftl].
  apply (Pos.iter_swap_gen _ _ Z.pos xO (Z.mul 2)). reflexivity.
Qed.

Lemma of_ulong_spec (w : Z) :
  0 < w < 2 ^ 32 ->
  exists m k, of_ulong w = S754_finite false m (- k) /\
              2 ^ 52 <= Z.pos m < 2 ^ 53 /\ 21 <= k <= 52 /\ Z.pos m = w * 2 ^ k.
Proof.
  intros Hw. destruct w as [|p|p]; try lia.
  unfold of_ulong, binary_normalize, binary_round.
  pose proof (Z.log2_nonneg (Z.pos p)) as Hl0.
  assert (Hl1 : Z.log2 (Z.pos p) < 32) by (apply Z.log2_lt_pow2; lia).
  pose proof (Z.log2_spec (Z.pos p) ltac:(lia)) as Hspec.
  rewrite digits2_log2.
  set (d := Z.log2 (Z.pos p) + 1) in *.
  replace (fexp prec emax (d + 0)) with (d - 53)
    by (unfold fexp, emin, prec, emax; lia).
  unfold shl_align.
  destruct (d - 53 - 0) as [|s|s] eqn:Hs; try lia.
  assert (Hsd : Z.pos s = 53 - d) by lia.
  assert (Hm : Z.pos (Pos.iter xO p s) = Z.pos p * 2 ^ (53 - d))
    by (rewrite pos_iter_xO, Hsd; reflexivity).
  assert (Hpw : 2 ^ Z.log2 (Z.pos p) * 2 ^ (53 - d) = 2 ^ 52).
  { rewrite <- Z.pow_add_r by lia. f_equal. unfold d. lia. }
  assert (Hpw' : 2 ^ Z.succ (Z.log2 (Z.pos p)) * 2 ^ (53 - d) = 2 ^ 53).
  { rewrite <- Z.pow_add_r by lia. f_equal. unfold d. lia. }
  assert (Hpos : 0 < 2 ^ (53 - d)) by (apply Z.pow_pos_nonneg; lia).
  assert (Hrange : 2 ^ 52 <= Z.pos (Pos.iter xO p s) < 2 ^ 53) by (rewrite Hm; nia).
  rewrite binary_round_aux_finish, shr_fexp_keep by lia. cbn [fst snd].
  destruct (loc_of_record_of (Z.pos (Pos.iter xO p s)) loc_Exact) as [-> ->].
  cbn [round_nearest_even].
  destruct (finish_spec (Z.pos (Pos.iter xO p s)) (d - 53)) as (m & j & Hf & Hmr & Hj);
    [lia|lia|].
  destruct Hj as [[-> Hpm]|(_ & Hm53 & _)]; [|lia].
  exists m, (53 - d). rewrite Hf. split; [f_equal; lia|].
  split; [exact Hmr|]. split; [lia|]. rewrite Hpm. exact Hm.
Qed.

Lemma ratio_spec (w h : Z) :
  0 < w < 2 ^ 32 -> 0 < h < 2 ^ 32 ->
  exists p k, div (of_ulong w) (of_ulong h) = S754_finite false p (- k) /\
              2 ^ 52 <= Z.pos p < 2 ^ 53 /\ 20 <= k <= 85 /\
              (2 * Z.pos p - 1) * h <= w * 2 ^ (k + 1) <= (2 * Z.pos p + 1) * h.
Proof.
  intros Hw Hh.
  destruct (of_ulong_spec w Hw) as (m1 & k1 & -> & Hm1 & Hk1 & Hv1).
  destruct (of_ulong_spec h Hh) as (m2 & k2 & -> & Hm2 & Hk2 & Hv2).
  destruct (div_finite_spec m1 m2 (- k1) (- k2) Hm1 Hm2 ltac:(lia))
    as (p & j & -> & Hp & Hj & Hb).
  exists p, (k1 - k2 + 53 - j). split; [f_equal; lia|]. split; [exact Hp|].
  split; [lia|].
  assert (HC : 0 < 2 ^ k2 * 2 ^ j).
  { apply Z.mul_pos_pos; apply Z.pow_pos_nonneg; lia. }
  assert (Hpow : 2 ^ (k1 - k2 + 53 - j + 1) * (2 ^ k2 * 2 ^ j) = 2 ^ k1 * 2 ^ 54).
  { rewrite <- !Z.pow_add_r by lia. f_equal. lia. }
  rewrite Hv1, Hv2 in Hb.
  set (A := 2 ^ (k1 - k2 + 53 - j + 1)) in *.
  set (C := 2 ^ k2 * 2 ^ j) in *.
  assert (Hnum : 2 * (w * 2 ^ k1 * 2 ^ 53) = w * A * C).
  { replace (w * A * C) with (w * (A * C)) by ring. rewrite Hpow.
    change (2 ^ 54) with (2 * 2 ^ 53). ring. }
  rewrite Hnum in Hb. destruct Hb as [Hlo Hhi].
  split.
  - apply (Z.mul_le_mono_pos_r _ _ C HC).
    replace ((2 * Z.pos p - 1) * h * C) with ((2 * Z.pos p - 1) * (h * 2 ^ k2) * 2 ^ j)
      by (unfold C; ring). exact Hlo.
  - apply (Z.mul_le_mono_pos_r _ _ C HC).
    replace ((2 * Z.pos p + 1) * h * C) with ((2 * Z.pos p + 1) * (h * 2 ^ k2) * 2 ^ j)
      by (unfold C; ring). exact Hhi.
Qed.

Lemma scale_le (a b h : Z) : 0 < h -> a <= b -> a * h <= b * h.
Proof. intros Hh Hab. apply Z.mul_le_mono_nonneg_r; [apply Z.lt_le_incl; exact Hh|exact Hab]. Qed.

Lemma pow2_scale_le (w a b : Z) : 0 < w -> 0 <= a <= b -> w * 2 ^ a <= w * 2 ^ b.
Proof.
  intros Hw Hab. apply Z.mul_le_mono_nonneg_l; [apply Z.lt_le_incl; exact Hw|].
  apply Z.pow_le_mono_r; [reflexivity|apply Hab].
Qed.

Lemma lt_finite (p1 p2 : positive) (e1 e2 : Z) :
  lt (S754_finite false p1 e1) (S754_finite false p2 e2) = true <->
  e1 < e2 \/ (e1 = e2 /\ Z.pos p1 < Z.pos p2).
Proof.
  unfold lt, SFltb, SFcompare.
  destruct (Z.compare_spec e1 e2) as [Heq|Hlt|Hgt].
  - change (Pos.compare_cont Eq p1 p2) with (Pos.compare p1 p2).
    destruct (Pos.compare_spec p1 p2) as [He|Hl|Hg].
    + subst p2. split; [discriminate|]. intros [H|[_ H]]; [|apply Z.lt_irrefl in H; contradiction].
      subst e2. apply Z.lt_irrefl in H. contradiction.
    + split; [intros _|reflexivity]. right. split; [exact Heq|]. apply Pos2Z.pos_lt_pos. exact Hl.
    + split; [discriminate|]. apply Pos2Z.pos_lt_pos in Hg.
      intros [H|[_ H]]; [subst e2; apply Z.lt_irrefl in H; contradiction|].
      exfalso. apply (Z.lt_irrefl (Z.pos p1)). apply (Z.lt_trans _ _ _ H Hg).
  - split; [intros _; left; exact Hlt|reflexivity].
  - split; [discriminate|]. intros [H|[H _]].
    + exfalso. apply (Z.lt_irrefl e1). apply (Z.lt_trans _ _ _ H Hgt).
    + subst e2. apply Z.lt_irrefl in Hgt. contradiction.
Qed.

Lemma gt_lit_1_7 (p : positive) (k w h : Z) :
  0 < w -> 0 < h < 2 ^ 32 -> 2 ^ 52 <= Z.pos p < 2 ^ 53 -> 0 <= k ->
  (2 * Z.pos p - 1) * h <= w * 2 ^ (k + 1) <= (2 * Z.pos p + 1) * h ->
  gt (S754_finite false p (- k)) lit_1_7 = true <-> 17 * h < 10 * w.
Proof.
  intros Hw [Hh Hh32] Hp Hk [Hlo Hhi]. unfold gt, lit_1_7.
  change (SFltb ?a ?b) with (lt a b). rewrite lt_finite.
  destruct (Z.lt_total k 52) as [Hlt|[Heq|Hgt]].
  - pose proof (pow2_scale_le w (k + 1) 52 Hw ltac:(clear - Hlt Hk; lia)) as Hs.
    pose proof (scale_le (2 ^ 53 - 1) (2 * Z.pos p - 1) h Hh ltac:(clear - Hp; lia)) as Hm.
    split; [intros _; clear - Hh Hlo Hs Hm; lia|intros _; left; clear - Hlt; lia].
  - subst k. change (2 ^ (52 + 1)) with 9007199254740992 in *.
    split.
    + intros [Hc|[_ Hc]]; [exfalso; clear - Hc; lia|].
      pose proof (scale_le (2 * 7656119366529843 + 1) (2 * Z.pos p - 1) h Hh
                    ltac:(clear - Hc; lia)) as Hs.
      clear - Hh Hlo Hs. lia.
    + intros Hr. right. split; [reflexivity|].
      destruct (Z_lt_ge_dec 7656119366529843 (Z.pos p)) as [Hc|Hc]; [exact Hc|exfalso].
      pose proof (scale_le (2 * Z.pos p + 1) (2 * 7656119366529843 + 1) h Hh
                    ltac:(clear - Hc; lia)) as Hs.
      clear - Hh Hh32 Hhi Hs Hr. lia.
  - pose proof (pow2_scale_le w 54 (k + 1) Hw ltac:(clear - Hgt; lia)) as Hs.
    pose proof (scale_le (2 * Z.pos p + 1) (2 ^ 54 - 1) h Hh ltac:(clear - Hp; lia)) as Hm.
    split; [intros [Hc|[Hc _]]; exfalso; clear - Hc Hgt; lia|].
    intros Hr. exfalso. clear - Hh Hhi Hs Hm Hr. lia.
Qed.

Lemma lt_lit_0_8 (p : positive) (k w h : Z) :
  0 < w -> 0 < h < 2 ^ 32 -> 2 ^ 52 <= Z.pos p < 2 ^ 53 -> 0 <= k ->
  (2 * Z.pos p - 1) * h <= w * 2 ^ (k + 1) <= (2 * Z.pos p + 1) * h ->
  lt (S754_finite false p (- k)) lit_0_8 = true <-> 5 * w < 4 * h.
Proof.
  intros Hw [Hh Hh32] Hp Hk [Hlo Hhi]. unfold lit_0_8. rewrite lt_finite.
  destruct (Z.lt_total k 53) as [Hlt|[Heq|Hgt]].
  - pose proof (pow2_scale_le w (k + 1) 53 Hw ltac:(clear - Hlt Hk; lia)) as Hs.
    pose proof (scale_le (2 ^ 53 - 1) (2 * Z.pos p - 1) h Hh ltac:(clear - Hp; lia)) as Hm.
    split; [intros [Hc|[Hc _]]; exfalso; clear - Hc Hlt; lia|].
    intros Hr. exfalso. clear - Hh Hlo Hs Hm Hr. lia.
  - subst k. change (2 ^ (53 + 1)) with 18014398509481984 in *.
    split.
    + intros [Hc|[_ Hc]]; [exfalso; clear - Hc; lia|].
      pose proof (scale_le (2 * Z.pos p + 1) (2 * 7205759403792794 - 1) h Hh
                    ltac:(clear - Hc; lia)) as Hs.
      clear - Hh Hhi Hs. lia.
    + intros Hr. right. split; [reflexivity|].
      destruct (Z_lt_ge_dec (Z.pos p) 7205759403792794) as [Hc|Hc]; [exact Hc|exfalso].
      pose proof (scale_le (2 * 7205759403792794 - 1) (2 * Z.pos p - 1) h Hh
                    ltac:(clear - Hc; lia)) as Hs.
      clear - Hh Hh32 Hlo Hs Hr. lia.
  - pose proof (pow2_scale_le w 55 (k + 1) Hw ltac:(clear - Hgt; lia)) as Hs.
    pose proof (scale_le (2 * Z.pos p + 1) (2 ^ 54 - 1) h Hh ltac:(clear - Hp; lia)) as Hm.
    split; [intros _; clear - Hh Hw Hhi Hs Hm; lia|intros _; left; clear - Hgt; lia].
Qed.

Lemma of_ulong_0 : of_ulong 0 = S754_zero false.
Proof. reflexivity. Qed.

(** The two literals are the correctly rounded quotients 17/10 and 8/10. *)
Example lit_1_7_rounded : div (of_ulong 17) (of_ulong 10) = lit_1_7.
Proof. reflexivity. Qed.

Example lit_0_8_rounded : div (of_ulong 8) (of_ulong 10) = lit_0_8.
Proof. reflexivity. Qed.

(** They lie within half a unit in the last place of 17/10 and 8/10:
    [|m / 2^52 - 17/10| <= 2^-53] and [|m / 2^53 - 8/10| <= 2^-54]. *)
Example lit_1_7_nearest :
  match lit_1_7 with
  | S754_finite false m e => e = -52 /\ Z.abs (10 * Z.pos m - 17 * 2 ^ 52) <= 5
  | _ => False
  end.
Proof. split; [reflexivity|]. vm_compute. discriminate. Qed.

Example lit_0_8_nearest :
  match lit_0_8 with
  | S754_finite false m e => e = -53 /\ Z.abs (10 * Z.pos m - 8 * 2 ^ 53) <= 5
  | _ => False
  end.
Proof. split; [reflexivity|]. vm_compute. discriminate. Qed.

(** Division by zero gives an infinity, and 0/0 is not a number. *)
Example div_by_zero : div (of_ulong 1920) (of_ulong 0) = S754_infinity false.
Proof. reflexivity. Qed.

Example zero_by_zero : div (of_ulong 0) (of_ulong 0) = S754_nan.
Proof. reflexivity. Qed.

End JSNumberFacts.

(** ** The aspect classifier *)

Section EventImageFacts.

Import JSNumber JSNumberFacts EventImage.
Local Open Scope Z_scope.

Example landscape_1920_1080 :
  handleImageLoad (Build_HTMLImageElement 1920 1080) initial = aspect_16_9.
Proof. reflexivity. Qed.

Example photo_1600_1200 :
  handleImageLoad (Build_HTMLImageElement 1600 1200) initial = aspect_4_3.
Proof. reflexivity. Qed.

Example portrait_600_800 :
  handleImageLoad (Build_HTMLImageElement 600 800) initial = aspect_3_4.
Proof. reflexivity. Qed.

Example boundary_17_10 :
  handleImageLoad (Build_HTMLImageElement 1700 1000) initial = aspect_4_3.
Proof. reflexivity. Qed.

Example boundary_8_10 :
  handleImageLoad (Build_HTMLImageElement 800 1000) initial = aspect_4_3.
Proof. reflexivity. Qed.

Example just_above_17_10 :
  handleImageLoad (Build_HTMLImageElement 4294967295 2526451349) initial = aspect_16_9.
Proof. reflexivity. Qed.

Lemma handleImageLoad_zero_width (img : HTMLImageElement) (aspect : Aspect) :
  naturalWidth img = 0 -> 0 < naturalHeight img < 2 ^ 32 ->
  handleImageLoad img aspect = aspect_3_4.
Proof.
  intros Hw Hh. unfold handleImageLoad. rewrite Hw, of_ulong_0.
  destruct (of_ulong_spec _ Hh) as (m & k & -> & _). reflexivity.
Qed.

Lemma handleImageLoad_zero_height (img : HTMLImageElement) (aspect : Aspect) :
  0 < naturalWidth img < 2 ^ 32 -> naturalHeight img = 0 ->
  handleImageLoad img aspect = aspect_16_9.
Proof.
  intros Hw Hh. unfold handleImageLoad. rewrite Hh, of_ulong_0.
  destruct (of_ulong_spec _ Hw) as (m & k & -> & _). reflexivity.
Qed.

Lemma handleImageLoad_zero_both (img : HTMLImageElement) (aspect : Aspect) :
  naturalWidth img = 0 -> naturalHeight img = 0 ->
  handleImageLoad img aspect = aspect_4_3.
Proof.
  intros Hw Hh. unfold handleImageLoad. rewrite Hw, Hh. reflexivity.
Qed.

Lemma handleImageLoad_positive (img : HTMLImageElement) (aspect : Aspect) :
  0 < naturalWidth img < 2 ^ 32 -> 0 < naturalHeight img < 2 ^ 32 ->
  handleImageLoad img aspect =
    if 17 * naturalHeight img <? 10 * naturalWidth img then aspect_16_9
    else if 5 * naturalWidth img <? 4 * naturalHeight img then aspect_3_4
    else aspect_4_3.
Proof.
  intros Hw Hh. unfold handleImageLoad.
  destruct (ratio_spec _ _ Hw Hh) as (p & k & -> & Hp & Hk & Hb).
  pose proof (gt_lit_1_7 p k _ _ (proj1 Hw) Hh Hp ltac:(clear - Hk; lia) Hb) as Hgt.
  pose proof (lt_lit_0_8 p k _ _ (proj1 Hw) Hh Hp ltac:(clear - Hk; lia) Hb) as Hlt.
  clear Hb.
  destruct (gt (S754_finite false p (- k)) lit_1_7).
  - rewrite (proj2 (Z.ltb_lt _ _) (proj1 Hgt eq_refl)). reflexivity.
  - destruct (Z.ltb_spec (17 * naturalHeight img) (10 * naturalWidth img)) as [Hc|_].
    + apply Hgt in Hc. discriminate.
    + destruct (lt (S754_finite false p (- k)) lit_0_8).
      * rewrite (proj2 (Z.ltb_lt _ _) (proj1 Hlt eq_refl)). reflexivity.
      * destruct (Z.ltb_spec (5 * naturalWidth img) (4 * naturalHeight img)) as [Hc|_];
          [apply Hlt in Hc; discriminate|reflexivity].
Qed.

Lemma Qratio_gt (w h : Z) (a : positive) (b : positive) :
  0 < h -> ((Z.pos a # b) < inject_Z w / inject_Z h)%Q <-> Z.pos a * h < Z.pos b * w.
Proof.
  intros Hh. destruct h as [|p|p]; try (clear - Hh; lia).
  unfold Qlt, Qdiv, Qmult, Qinv, inject_Z. cbn [Qnum Qden].
  rewrite Pos.mul_1_l, Z.mul_1_r. lia.
Qed.

Lemma Qratio_lt (w h : Z) (a : positive) (b : positive) :
  0 < h -> (inject_Z w / inject_Z h < (Z.pos a # b))%Q <-> Z.pos b * w < Z.pos a * h.
Proof.
  intros Hh. destruct h as [|p|p]; try (clear - Hh; lia).
  unfold Qlt, Qdiv, Qmult, Qinv, inject_Z. cbn [Qnum Qden].
  rewrite Pos.mul_1_l, Z.mul_1_r. lia.
Qed.

(** C1. For a loaded image with natural width [w] and height [h] (two
    [unsigned long] values, [h] positive) and [r = w / h]: the classifier
    selects the wide 16:9 bucket exactly when [r > 1.7], the tall 3:4 bucket
    exactly when [r < 0.8], and the standard 4:3 bucket exactly when
    [0.8 <= r <= 1.7]; the boundary ratios 0.8 and 1.7 are standard. *)
Theorem C1_aspect_thresholds (img : HTMLImageElement) (aspect : Aspect) :
  ulong (naturalWidth img) -> ulong (naturalHeight img) -> 0 < naturalHeight img ->
  let r := (inject_Z (naturalWidth img) / inject_Z (naturalHeight img))%Q in
  (handleImageLoad img aspect = aspect_16_9 <-> (1.7 < r)%Q) /\
  (handleImageLoad img aspect = aspect_3_4 <-> (r < 0.8)%Q) /\
  (handleImageLoad img aspect = aspect_4_3 <-> (0.8 <= r)%Q /\ (r <= 1.7)%Q).
Proof.
  intros [Hw0 Hw] [_ Hh] Hh0 r.
  assert (Hgt : (1.7 < r)%Q <-> 17 * naturalHeight img < 10 * naturalWidth img)
    by (apply Qratio_gt; exact Hh0).
  assert (Hlt : (r < 0.8)%Q <-> 10 * naturalWidth img < 8 * naturalHeight img)
    by (apply Qratio_lt; exact Hh0).
  assert (Hge : (0.8 <= r)%Q <-> ~ (r < 0.8)%Q)
    by (split; [apply Qle_not_lt|apply Qnot_lt_le]).
  assert (Hle : (r <= 1.7)%Q <-> ~ (1.7 < r)%Q)
    by (split; [apply Qle_not_lt|apply Qnot_lt_le]).
  rewrite Hge, Hle, Hgt, Hlt. clear Hge Hle Hgt Hlt r.
  destruct (Z.eq_dec (naturalWidth img) 0) as [Hz|Hnz].
  - rewrite (handleImageLoad_zero_width img aspect Hz (conj Hh0 Hh)), Hz.
    repeat split; intros; try discriminate; try lia.
  - rewrite (handleImageLoad_positive img aspect ltac:(lia) (conj Hh0 Hh)).
    destruct (Z.ltb_spec (17 * naturalHeight img) (10 * naturalWidth img));
      [|destruct (Z.ltb_spec (5 * naturalWidth img) (4 * naturalHeight img))];
      repeat split; intros; try discriminate; try reflexivity; try lia.
Qed.

Lemma C1_aspect_thresholds_witness :
  let img := Build_HTMLImageElement 1700 1000 in
  let r := (inject_Z (naturalWidth img) / inject_Z (naturalHeight img))%Q in
  (handleImageLoad img initial = aspect_16_9 <-> (1.7 < r)%Q) /\
  (handleImageLoad img initial = aspect_3_4 <-> (r < 0.8)%Q) /\
  (handleImageLoad img initial = aspect_4_3 <-> (0.8 <= r)%Q /\ (r <= 1.7)%Q).
Proof.
  apply (C1_aspect_thresholds (Build_HTMLImageElement 1700 1000) initial);
    unfold ulong; simpl; lia.
Defined.

(** C2, as stated, fails: an image of width 1920 and height 0 has the ratio
    +Infinity and gets the 16:9 bucket, not the default one. *)
Lemma C2_malformed_counterexample :
  ~ (forall img aspect,
       ulong (naturalWidth img) -> ulong (naturalHeight img) -> malformed img ->
       handleImageLoad img aspect = aspect_4_3).
Proof.
  intros H.
  specialize (H (Build_HTMLImageElement 1920 0) initial).
  assert (Hc : handleImageLoad (Build_HTMLImageElement 1920 0) initial = aspect_16_9)
    by reflexivity.
  rewrite H in Hc; [discriminate| | |]; unfold ulong, malformed; simpl; lia.
Qed.

(** C2, amended. The classifier has no error path: for malformed dimensions
    it still returns a bucket.  That bucket is the default 4:3 one when both
    dimensions are zero (the ratio is NaN); with height zero and a positive
    width (ratio +Infinity) it is 16:9, and with width zero and a positive
    height (ratio 0) it is 3:4. *)
Theorem C2_malformed_buckets (img : HTMLImageElement) (aspect : Aspect) :
  ulong (naturalWidth img) -> ulong (naturalHeight img) -> malformed img ->
  handleImageLoad img aspect =
    if naturalHeight img =? 0
    then (if naturalWidth img =? 0 then aspect_4_3 else aspect_16_9)
    else aspect_3_4.
Proof.
  intros [Hw0 Hw] [Hh0 Hh] Hm.
  destruct (Z.eqb_spec (naturalHeight img) 0) as [Hhz|Hhz].
  - destruct (Z.eqb_spec (naturalWidth img) 0) as [Hwz|Hwz].
    + apply handleImageLoad_zero_both; assumption.
    + apply handleImageLoad_zero_height; [lia|assumption].
  - apply handleImageLoad_zero_width; [|lia].
    destruct Hm as [Hm|Hm]; lia.
Qed.

Lemma C2_malformed_buckets_witness :
  handleImageLoad (Build_HTMLImageElement 0 600) initial = aspect_3_4.
Proof.
  apply (C2_malformed_buckets (Build_HTMLImageElement 0 600) initial);
    unfold ulong, malformed; simpl; lia.
Defined.

End EventImageFacts.

Local Open Scope list_scope.

(** ** Runs of handlers *)

Module RunFacts.

Import JS.

(** Unfolds the monad and the primitives on an environment whose next
    fault and next answer are known, and flattens the trace. *)
Ltac js_run :=
  cbv beta iota zeta delta
    [try_finally try_catch mbind M_bind mret M_ret throw get set emit
     console_error toast_success toast_error confirm query throw_if_error
     events_select messages_select events_update events_insert events_delete
     messages_update messages_delete
     hd tl negb Supabase.error Supabase.data tables faults answers log default
     completion state env fst snd
     EventManager.setEvents EventManager.setLoading EventManager.setEditingEvent
     EventManager.setFormData EventManager.events EventManager.loading
     EventManager.editingEvent EventManager.formData
     ContactMessages.setMessages ContactMessages.setLoading
     ContactMessages.setEditingNotes ContactMessages.messages
     ContactMessages.loading ContactMessages.editingNotes
     MusikkfestPage.setEvents MusikkfestPage.setLoading
     MusikkfestPage.setSelectedEvent MusikkfestPage.events MusikkfestPage.loading
     MusikkfestPage.selectedEvent
     MembershipForm.setFormData MembershipForm.setSubmitted
     MembershipForm.setSubmitting MembershipForm.formData MembershipForm.submitted
     MembershipForm.submitting MembershipForm.await_action];
  repeat rewrite <- app_assoc; cbn [app].

End RunFacts.

(** ** Order of the rows that a select returns *)

Section OrderFacts.

Variable instant : string -> Z.

#[local] Instance event_date_le_total : Total (Supabase.event_date_le instant).
Proof. intros a b. unfold Supabase.event_date_le. lia. Qed.

#[local] Instance event_date_le_trans : Transitive (Supabase.event_date_le instant).
Proof. intros a b c. unfold Supabase.event_date_le. lia. Qed.

Lemma select_events_sorted (festival : option string) (t : Supabase.Tables) :
  StronglySorted (Supabase.event_date_le instant)
                 (Supabase.select_events instant festival t).
Proof.
  unfold Supabase.select_events, Supabase.order_by_event_date.
  apply StronglySorted_merge_sort; typeclasses eauto.
Qed.

Lemma StronglySorted_filter {A : Type} (R : A -> A -> Prop) (f : A -> bool) (l : list A) :
  StronglySorted R l -> StronglySorted R (List.filter f l).
Proof.
  induction 1 as [|x l Hl IH Hx]; cbn [List.filter]; [constructor|].
  destruct (f x); [|exact IH].
  constructor; [exact IH|].
  rewrite List.Forall_forall in *. intros y Hy.
  apply List.filter_In in Hy. apply Hx, Hy.
Qed.

Lemma StronglySorted_map_same_key {A : Type} (R : A -> A -> Prop) (g : A -> A) (l : list A) :
  (forall x y, R x y -> R (g x) (g y)) ->
  StronglySorted R l -> StronglySorted R (List.map g l).
Proof.
  intros Hg. induction 1 as [|x l Hl IH Hx]; cbn [List.map]; constructor.
  - exact IH.
  - rewrite List.Forall_forall in *. intros y Hy.
    apply List.in_map_iff in Hy. destruct Hy as (z & <- & Hz).
    apply Hg, Hx, Hz.
Qed.

End OrderFacts.

(** ** The festival page *)

Section MusikkfestPageFacts.

Import JS RunFacts MusikkfestPage.

Variable instant : string -> Z.

Lemma fetchMusikkfestEvents_state (s : State) (e : Env) :
  state (fetchMusikkfestEvents instant s e) =
  mkState
    (match hd None (faults e) with
     | Some _ => events s
     | None => Supabase.select_events instant (Some "musikkfest") (tables e)
     end)
    false (selectedEvent s).
Proof.
  destruct e as [t fs ans lg]. unfold fetchMusikkfestEvents, setEvents, setLoading.
  destruct fs as [|[err|] fs]; js_run; reflexivity.
Qed.

Lemma cards_render (s : State) (event : Event.t) :
  loading s = false ->
  In event (cards (render s)) <->
  In event (events s) /\ Event.title event <> "Grendedag".
Proof.
  intros Hl. unfold render. rewrite Hl.
  destruct (events s) as [|first rest] eqn:Hev.
  - cbn. tauto.
  - cbn [List.length Nat.eqb cards]. rewrite List.filter_In, negb_true_iff.
    rewrite <- not_true_iff_false, String.eqb_eq. reflexivity.
Qed.

Lemma cards_render_sorted (s : State) :
  StronglySorted (Supabase.event_date_le instant) (events s) ->
  StronglySorted (Supabase.event_date_le instant) (cards (render s)).
Proof.
  intros Hs. unfold render.
  destruct (loading s); [constructor|].
  destruct (Nat.eqb (List.length (events s)) 0); [constructor|].
  apply StronglySorted_filter, Hs.
Qed.

(** C5. After the festival page has fetched its events, the grid holds
    exactly the fetched records whose title is not "Grendedag": a record with
    that title has no card whatever its other fields, and every other fetched
    record has one. *)
Theorem C5_grendedag_excluded (e : Env) :
  let page := state (fetchMusikkfestEvents instant initial e) in
  events page =
    match hd None (faults e) with
    | Some _ => []
    | None => Supabase.select_events instant (Some "musikkfest") (tables e)
    end /\
  forall event : Event.t,
    In event (cards (render page)) <->
    In event (events page) /\ Event.title event <> "Grendedag".
Proof.
  intros page. unfold page. rewrite fetchMusikkfestEvents_state. split.
  - reflexivity.
  - intros event. apply cards_render. reflexivity.
Qed.

End MusikkfestPageFacts.

(** ** The admin event manager *)

Section EventManagerFacts.

Import JS RunFacts EventManager.

Variable instant : string -> Z.

Ltac em_run :=
  unfold perform, handleSubmit, handleDelete, handleStatusChange,
    handleEdit, cancelEdit, onChange, fetchEvents,
    setEvents, setLoading, setEditingEvent, setFormData;
  js_run; cbn [events loading editingEvent formData].

Lemma fetchEvents_fault (s : State) t err fs ans lg :
  fetchEvents instant s (mkEnv t (Some err :: fs) ans lg) =
  (Normal tt,
   mkState (events s) false (editingEvent s) (formData s),
   mkEnv t fs ans
     (lg ++ [Query (Supabase.events_select None);
             ConsoleError "Error fetching events:" err;
             ToastError "Kunne ikke hente arrangementer"])).
Proof. em_run. reflexivity. Qed.

Lemma fetchEvents_ok (s : State) t fs ans lg :
  fetchEvents instant s (mkEnv t (None :: fs) ans lg) =
  (Normal tt,
   mkState (Supabase.select_events instant None t) false (editingEvent s) (formData s),
   mkEnv t fs ans (lg ++ [Query (Supabase.events_select None)])).
Proof. em_run. reflexivity. Qed.

(** After any action the list is the one before, a freshly selected one, or
    the one before with one status rewritten. *)
Lemma perform_events (a : Action) (s : State) (e : Env) :
  events (state (perform instant a s e)) = events s \/
  (exists t, events (state (perform instant a s e)) = Supabase.select_events instant None t) \/
  (exists id newStatus,
     events (state (perform instant a s e)) =
     List.map (fun event => if String.eqb (Event.id event) id
                            then Event.with_status event newStatus else event)
              (events s)).
Proof.
  destruct e as [t fs ans lg]. destruct s as [evs ld ed fd].
  destruct a as [| |id|id newStatus|event| |c].
  - destruct fs as [|[err|] fs]; em_run; eauto.
  - destruct ed as [editing|];
      destruct fs as [|[err|] [|[err'|] fs]]; em_run; eauto.
  - destruct ans as [|[|] ans];
      destruct fs as [|[err|] [|[err'|] fs]]; em_run; eauto.
  - destruct fs as [|[err|] fs]; em_run; eauto.
  - em_run; eauto.
  - em_run; eauto.
  - em_run; eauto.
Qed.

Lemma perform_sorted (a : Action) (s : State) (e : Env) :
  StronglySorted (Supabase.event_date_le instant) (events s) ->
  StronglySorted (Supabase.event_date_le instant) (events (state (perform instant a s e))).
Proof.
  intros Hs.
  destruct (perform_events a s e) as [->|[(t & ->)|(id & newStatus & ->)]].
  - exact Hs.
  - apply select_events_sorted.
  - apply StronglySorted_map_same_key; [|exact Hs].
    intros x y Hxy. destruct (String.eqb (Event.id x) id), (String.eqb (Event.id y) id);
      exact Hxy.
Qed.

Lemma session_sorted (actions : list Action) (s : State) (e : Env) :
  StronglySorted (Supabase.event_date_le instant) (events s) ->
  StronglySorted (Supabase.event_date_le instant)
                 (events (fst (session instant actions s e))).
Proof.
  revert s e. induction actions as [|a rest IH]; intros s e Hs; cbn [session].
  - exact Hs.
  - apply IH, perform_sorted, Hs.
Qed.

(** No handler lets an exception escape. *)
Lemma perform_normal (a : Action) (s : State) (e : Env) :
  completion (perform instant a s e) = Normal tt.
Proof.
  destruct e as [t fs ans lg]. destruct s as [evs ld ed fd].
  destruct a as [| |id|id newStatus|event| |c].
  - destruct fs as [|[err|] fs]; em_run; reflexivity.
  - destruct ed as [editing|];
      destruct fs as [|[err|] [|[err'|] fs]]; em_run; reflexivity.
  - destruct ans as [|[|] ans];
      destruct fs as [|[err|] [|[err'|] fs]]; em_run; reflexivity.
  - destruct fs as [|[err|] fs]; em_run; reflexivity.
  - em_run; reflexivity.
  - em_run; reflexivity.
  - em_run; reflexivity.
Qed.

End EventManagerFacts.

(** ** The admin contact-message manager *)

Section ContactMessagesFacts.

Import JS RunFacts ContactMessages.

Variable instant : string -> Z.

Ltac cm_run :=
  unfold updateStatus, updateAdminNotes, deleteMessage, onNotesChange, fetchMessages,
    setMessages, setLoading, setEditingNotes;
  js_run; cbn [messages loading editingNotes].

Lemma fetchMessages_fault (s : State) t err fs ans lg :
  fetchMessages instant s (mkEnv t (Some err :: fs) ans lg) =
  (Normal tt,
   mkState (messages s) false (editingNotes s),
   mkEnv t fs ans
     (lg ++ [Query Supabase.messages_select;
             ConsoleError "Error fetching messages:" err;
             ToastError "Could not fetch messages"])).
Proof. cm_run. reflexivity. Qed.

Lemma fetchMessages_ok (s : State) t fs ans lg :
  fetchMessages instant s (mkEnv t (None :: fs) ans lg) =
  (Normal tt,
   mkState (Supabase.select_messages instant t) false
           (notesState (Some (Supabase.select_messages instant t))),
   mkEnv t fs ans (lg ++ [Query Supabase.messages_select])).
Proof. cm_run. reflexivity. Qed.

Lemma notes_fold_lookup (data : list ContactMessage.t) (acc : gmap string string) (k : string) :
  acc !! "__proto__" = None ->
  fold_left
    (fun (notes : gmap string string) message =>
       JSObject.assign (ContactMessage.id message) (stored_note message) notes)
    data acc !! k =
  if String.eqb k "__proto__" then None
  else match last (List.filter (fun m => String.eqb (ContactMessage.id m) k) data) with
       | Some m => Some (stored_note m)
       | None => acc !! k
       end.
Proof.
  revert acc. induction data as [|m data IH]; intros acc Hacc; cbn [fold_left List.filter].
  - destruct (String.eqb_spec k "__proto__") as [->|Hk]; [exact Hacc|reflexivity].
  - unfold JSObject.assign at 2.
    destruct (String.eqb_spec (ContactMessage.id m) "__proto__") as [Hm|Hm].
    + rewrite Hm, Hacc. rewrite (IH acc Hacc). rewrite <- Hm.
      destruct (String.eqb_spec k (ContactMessage.id m)) as [Hk|Hk]; [reflexivity|].
      destruct (String.eqb_spec (ContactMessage.id m) k) as [Heq|_];
        [symmetry in Heq; contradiction|reflexivity].
    + assert (Hins : (<[ContactMessage.id m := stored_note m]> acc) !! "__proto__" = None)
        by (rewrite lookup_insert_ne by exact Hm; exact Hacc).
      assert (Hstep : match acc !! ContactMessage.id m with
                      | Some _ => <[ContactMessage.id m := stored_note m]> acc
                      | None => <[ContactMessage.id m := stored_note m]> acc
                      end = <[ContactMessage.id m := stored_note m]> acc)
        by (destruct (acc !! ContactMessage.id m); reflexivity).
      rewrite Hstep, (IH _ Hins).
      destruct (String.eqb k "__proto__"); [reflexivity|].
      destruct (String.eqb_spec (ContactMessage.id m) k) as [Heq|Hne].
      * rewrite last_cons.
        destruct (last (List.filter (fun m0 => String.eqb (ContactMessage.id m0) k) data));
          [reflexivity|].
        rewrite Heq. apply lookup_insert_eq.
      * destruct (last (List.filter (fun m0 => String.eqb (ContactMessage.id m0) k) data));
          [reflexivity|].
        apply lookup_insert_ne. exact Hne.
Qed.

Lemma notesState_lookup (data : list ContactMessage.t) (k : string) :
  notesState (Some data) !! k =
  if String.eqb k "__proto__" then None
  else stored_note <$>
         last (List.filter (fun m => String.eqb (ContactMessage.id m) k) data).
Proof.
  unfold notesState. cbn [default from_option id].
  rewrite (notes_fold_lookup data ∅ k (lookup_empty _)).
  destruct (String.eqb k "__proto__"); [reflexivity|].
  destruct (last (List.filter (fun m => String.eqb (ContactMessage.id m) k) data));
    [reflexivity|apply lookup_empty].
Qed.

(** No handler lets an exception escape. *)
Lemma messages_perform_normal (encodeURIComponent : string -> string)
    (a : Action) (s : State) (e : Env) :
  completion (perform instant encodeURIComponent a s e) = Normal tt.
Proof.
  destruct e as [t fs ans lg]. destruct s as [ms ld notes].
  destruct a as [|id status|id|id|email name|id value]; unfold perform, handleReply.
  - destruct fs as [|[err|] fs]; cm_run; reflexivity.
  - destruct fs as [|[err|] [|[err'|] fs]]; cm_run; reflexivity.
  - destruct fs as [|[err|] [|[err'|] fs]]; cm_run; reflexivity.
  - destruct ans as [|[|] ans];
      destruct fs as [|[err|] [|[err'|] fs]]; cm_run; reflexivity.
  - cm_run; reflexivity.
  - cm_run; reflexivity.
Qed.

End ContactMessagesFacts.

(** ** The membership form *)

Section MembershipFormFacts.

Import JS RunFacts MembershipForm.

Ltac mf_run :=
  unfold submit, handleSubmit, await_action, setFormData, setSubmitted, setSubmitting;
  js_run; cbn [formData submitted submitting].

Lemma handleSubmit_run (action : StoreAction) (s : State) (e : Env) :
  handleSubmit action s e =
  match action (formData s) (logged e PreventDefault) with
  | (Normal _, e') =>
      (Normal tt, mkState emptyForm true true, logged e' (Navigate checkout_url))
  | (Throw err, e') =>
      (Throw err, mkState (formData s) (submitted s) true, e')
  end.
Proof.
  unfold logged. mf_run.
  match goal with |- context [action ?d ?x] => destruct (action d x) as [[[]|err] e'] end;
    reflexivity.
Qed.

Lemma checkValidity_spec (f : FormData) :
  checkValidity f = true <-> required_filled f /\ valid_email (email f) = true.
Proof.
  unfold checkValidity, required_filled, fields, valueMissing, typeMismatch.
  cbn [forallb control required value andb].
  destruct (String.eqb_spec (name f) ""), (String.eqb_spec (email f) ""),
    (String.eqb_spec (location f) ""), (String.eqb_spec (ageGroup f) ""),
    (valid_email (email f)); cbn; intuition congruence.
Qed.

End MembershipFormFacts.

(** * The claims about the pages, the managers and the form *)

Section Claims.

Import JS RunFacts.

Variable instant : string -> Z.

Ltac run :=
  unfold EventManager.handleSubmit, EventManager.handleDelete,
    EventManager.handleStatusChange, EventManager.fetchEvents,
    EventManager.setEvents, EventManager.setLoading,
    EventManager.setEditingEvent, EventManager.setFormData,
    ContactMessages.updateStatus, ContactMessages.updateAdminNotes,
    ContactMessages.deleteMessage, ContactMessages.fetchMessages,
    ContactMessages.setMessages, ContactMessages.setLoading,
    ContactMessages.setEditingNotes,
    MusikkfestPage.fetchMusikkfestEvents, MusikkfestPage.setEvents,
    MusikkfestPage.setLoading;
  js_run.

(** C6. Both event lists are rendered in ascending order of [event_date]:
    on the festival page after its fetch, and in the admin manager after any
    sequence of actions, each rendered event's date is at most the date of
    the event rendered next. *)
Theorem C6_events_sorted :
  (forall e : Env,
     Sorted (Supabase.event_date_le instant)
       (MusikkfestPage.cards
          (MusikkfestPage.render
             (state (MusikkfestPage.fetchMusikkfestEvents instant
                       MusikkfestPage.initial e))))) /\
  (forall (actions : list EventManager.Action) (e : Env),
     Sorted (Supabase.event_date_le instant)
       (EventManager.rendered
          (fst (EventManager.session instant actions EventManager.initial e)))).
Proof.
  split.
  - intros e. apply StronglySorted_Sorted, cards_render_sorted.
    rewrite fetchMusikkfestEvents_state. cbn [MusikkfestPage.events].
    destruct (hd None (faults e)); [constructor|apply select_events_sorted].
  - intros actions e. unfold EventManager.rendered.
    destruct (EventManager.loading _); [constructor|].
    apply StronglySorted_Sorted, session_sorted. constructor.
Qed.

(** C7. Deleting an event or a contact message first shows a confirmation
    dialog; when the answer is no, the handler returns at once: no request is
    sent, the tables are as before, and so is the whole component state. *)
Theorem C7_declined_delete (id : string) :
  (forall (s : EventManager.State) t fs ans lg,
     EventManager.handleDelete instant id s (mkEnv t fs (false :: ans) lg) =
     (Normal tt, s,
      mkEnv t fs ans
        (lg ++ [ConfirmDialog "Er du sikker på at du vil slette dette arrangementet?"]))) /\
  (forall (s : ContactMessages.State) t fs ans lg,
     ContactMessages.deleteMessage instant id s (mkEnv t fs (false :: ans) lg) =
     (Normal tt, s,
      mkEnv t fs ans
        (lg ++ [ConfirmDialog "Er du sikker på at du vil slette denne meldingen?"]))) /\
  (forall (s : EventManager.State) (e : Env),
     exists rest,
       log (env (EventManager.handleDelete instant id s e)) =
       log e ++ ConfirmDialog "Er du sikker på at du vil slette dette arrangementet?" :: rest) /\
  (forall (s : ContactMessages.State) (e : Env),
     exists rest,
       log (env (ContactMessages.deleteMessage instant id s e)) =
       log e ++ ConfirmDialog "Er du sikker på at du vil slette denne meldingen?" :: rest).
Proof.
  split; [|split; [|split]].
  - intros. run. reflexivity.
  - intros. run. reflexivity.
  - intros s [t fs ans lg].
    destruct ans as [|[|] ans]; destruct fs as [|[err|] [|[err'|] fs]];
      eexists; run; reflexivity.
  - intros s [t fs ans lg].
    destruct ans as [|[|] ans]; destruct fs as [|[err|] [|[err'|] fs]];
      eexists; run; reflexivity.
Qed.

(** C8. A status update and a notes update of a contact message are two
    separate writes.  The status update sends one [update] whose body holds
    the status only, and the stored rows keep their notes and every other
    column; the notes update sends one [update] whose body holds the notes
    only, and the stored rows keep their status and every other column. *)
Theorem C8_status_and_notes_independent
    (id : string) (status : ContactMessage.MessageStatus)
    (s : ContactMessages.State) t fs ans lg :
  let r1 := ContactMessages.updateStatus instant id status s (mkEnv t (None :: fs) ans lg) in
  let r2 := ContactMessages.updateAdminNotes instant id s (mkEnv t (None :: fs) ans lg) in
  (exists rest,
     log (env r1) =
       lg ++ Query (Supabase.messages_update
                      (ContactMessage.mkPartial (Some status) JSObject.undefined) id) :: rest /\
     forall body id', ~ In (Query (Supabase.messages_update body id')) rest) /\
  Supabase.contact_messages (tables (env r1)) =
    List.map
      (fun m =>
         if String.eqb (ContactMessage.id m) id
         then ContactMessage.mk (ContactMessage.id m) (ContactMessage.name m)
                (ContactMessage.email m) (ContactMessage.message m)
                (ContactMessage.created_at m) (ContactMessage.admin_notes m) status
         else m)
      (Supabase.contact_messages t) /\
  (exists rest,
     log (env r2) =
       lg ++ Query (Supabase.messages_update
                      (ContactMessage.mkPartial None
                         (JSObject.get (ContactMessages.editingNotes s) id)) id) :: rest /\
     forall body id', ~ In (Query (Supabase.messages_update body id')) rest) /\
  Supabase.contact_messages (tables (env r2)) =
    List.map
      (fun m =>
         if String.eqb (ContactMessage.id m) id
         then ContactMessage.mk (ContactMessage.id m) (ContactMessage.name m)
                (ContactMessage.email m) (ContactMessage.message m)
                (ContactMessage.created_at m)
                (match JSObject.get (ContactMessages.editingNotes s) id with
                 | JSObject.text notes => Some notes
                 | JSObject.prototype => Some "{}"
                 | JSObject.undefined | JSObject.method _ =>
                     ContactMessage.admin_notes m
                 end)
                (ContactMessage.status m)
         else m)
      (Supabase.contact_messages t).
Proof.
  intros r1 r2. unfold r1, r2. clear r1 r2.
  split; [|split; [|split]].
  - destruct fs as [|[err|] fs]; eexists; (split; [run; reflexivity|]);
      intros body id' Hin; cbn [In] in Hin; intuition discriminate.
  - destruct fs as [|[err|] fs]; run; reflexivity.
  - destruct fs as [|[err|] fs]; eexists; (split; [run; reflexivity|]);
      intros body id' Hin; cbn [In] in Hin; intuition discriminate.
  - destruct fs as [|[err|] fs]; run; reflexivity.
Qed.

(** C9. A failing request never aborts a handler and is not retried.  A
    failing admin mutation (status change, save, delete; for messages status,
    notes, delete) sends its one request, logs the error, shows an error
    toast and leaves the component state, lists included, as it was.  A
    failing first fetch leaves the list empty.  When a mutation succeeds and
    the refetch after it fails, the list is the one held before.  No action
    of either admin component ever ends in an exception. *)
Theorem C9_failed_requests (err : Supabase.Error) t fs ans lg :
  (* the mutation itself fails *)
  ((forall (s : EventManager.State) id newStatus,
      EventManager.handleStatusChange id newStatus s (mkEnv t (Some err :: fs) ans lg) =
      (Normal tt, s,
       mkEnv t fs ans
         (lg ++ [Query (Supabase.events_update (Event.only_status newStatus) id);
                 ConsoleError "Error updating event status:" err;
                 ToastError "Kunne ikke oppdatere status"]))) /\
   (forall (s : EventManager.State),
      EventManager.handleSubmit instant s (mkEnv t (Some err :: fs) ans lg) =
      (Normal tt, s,
       mkEnv t fs ans
         (lg ++ [PreventDefault;
                 Query (match EventManager.editingEvent s with
                        | Some editing =>
                            Supabase.events_update (EventManager.formData s)
                                                   (Event.id editing)
                        | None => Supabase.events_insert [EventManager.formData s]
                        end);
                 ConsoleError "Error saving event:" err;
                 ToastError "Kunne ikke lagre arrangement"]))) /\
   (forall (s : EventManager.State) id,
      EventManager.handleDelete instant id s (mkEnv t (Some err :: fs) (true :: ans) lg) =
      (Normal tt, s,
       mkEnv t fs ans
         (lg ++ [ConfirmDialog "Er du sikker på at du vil slette dette arrangementet?";
                 Query (Supabase.events_delete id);
                 ConsoleError "Error deleting event:" err;
                 ToastError "Kunne ikke slette arrangement"]))) /\
   (forall (s : ContactMessages.State) id status,
      ContactMessages.updateStatus instant id status s (mkEnv t (Some err :: fs) ans lg) =
      (Normal tt, s,
       mkEnv t fs ans
         (lg ++ [Query (Supabase.messages_update
                          (ContactMessage.mkPartial (Some status) JSObject.undefined) id);
                 ConsoleError "Error updating status:" err;
                 ToastError "Could not update status"]))) /\
   (forall (s : ContactMessages.State) id,
      ContactMessages.updateAdminNotes instant id s (mkEnv t (Some err :: fs) ans lg) =
      (Normal tt, s,
       mkEnv t fs ans
         (lg ++ [Query (Supabase.messages_update
                          (ContactMessage.mkPartial None
                             (JSObject.get (ContactMessages.editingNotes s) id)) id);
                 ConsoleError "Error updating notes:" err;
                 ToastError "Could not update notes"]))) /\
   (forall (s : ContactMessages.State) id,
      ContactMessages.deleteMessage instant id s
        (mkEnv t (Some err :: fs) (true :: ans) lg) =
      (Normal tt, s,
       mkEnv t fs ans
         (lg ++ [ConfirmDialog "Er du sikker på at du vil slette denne meldingen?";
                 Query (Supabase.messages_delete id);
                 ConsoleError "Error deleting message:" err;
                 ToastError "Kunne ikke slette melding"])))) /\
  (* the first fetch fails *)
  (EventManager.fetchEvents instant EventManager.initial
       (mkEnv t (Some err :: fs) ans lg) =
     (Normal tt,
      EventManager.mkState [] false None EventManager.emptyForm,
      mkEnv t fs ans
        (lg ++ [Query (Supabase.events_select None);
                ConsoleError "Error fetching events:" err;
                ToastError "Kunne ikke hente arrangementer"])) /\
   ContactMessages.fetchMessages instant ContactMessages.initial
       (mkEnv t (Some err :: fs) ans lg) =
     (Normal tt,
      ContactMessages.mkState [] false ∅,
      mkEnv t fs ans
        (lg ++ [Query Supabase.messages_select;
                ConsoleError "Error fetching messages:" err;
                ToastError "Could not fetch messages"])) /\
   MusikkfestPage.fetchMusikkfestEvents instant MusikkfestPage.initial
       (mkEnv t (Some err :: fs) ans lg) =
     (Normal tt,
      MusikkfestPage.mkState [] false None,
      mkEnv t fs ans (lg ++ [Query (Supabase.events_select (Some "musikkfest"))]))) /\
  (* the mutation succeeds and the refetch after it fails *)
  ((forall (s : EventManager.State),
      let r := EventManager.handleSubmit instant s (mkEnv t (None :: Some err :: fs) ans lg) in
      completion r = Normal tt /\
      EventManager.events (state r) = EventManager.events s /\
      log (env r) =
        lg ++ [PreventDefault;
               Query (match EventManager.editingEvent s with
                      | Some editing =>
                          Supabase.events_update (EventManager.formData s)
                                                 (Event.id editing)
                      | None => Supabase.events_insert [EventManager.formData s]
                      end);
               ToastSuccess (match EventManager.editingEvent s with
                             | Some _ => "Arrangement oppdatert"
                             | None => "Arrangement opprettet"
                             end);
               Query (Supabase.events_select None);
               ConsoleError "Error fetching events:" err;
               ToastError "Kunne ikke hente arrangementer"]) /\
   (forall (s : EventManager.State) id,
      let r := EventManager.handleDelete instant id s
                 (mkEnv t (None :: Some err :: fs) (true :: ans) lg) in
      completion r = Normal tt /\
      EventManager.events (state r) = EventManager.events s /\
      log (env r) =
        lg ++ [ConfirmDialog "Er du sikker på at du vil slette dette arrangementet?";
               Query (Supabase.events_delete id);
               ToastSuccess "Arrangement slettet";
               Query (Supabase.events_select None);
               ConsoleError "Error fetching events:" err;
               ToastError "Kunne ikke hente arrangementer"]) /\
   (forall (s : ContactMessages.State) id status,
      let r := ContactMessages.updateStatus instant id status s
                 (mkEnv t (None :: Some err :: fs) ans lg) in
      completion r = Normal tt /\
      ContactMessages.messages (state r) = ContactMessages.messages s /\
      ContactMessages.editingNotes (state r) = ContactMessages.editingNotes s /\
      log (env r) =
        lg ++ [Query (Supabase.messages_update
                        (ContactMessage.mkPartial (Some status) JSObject.undefined) id);
               ToastSuccess "Status updated";
               Query Supabase.messages_select;
               ConsoleError "Error fetching messages:" err;
               ToastError "Could not fetch messages"]) /\
   (forall (s : ContactMessages.State) id,
      let r := ContactMessages.updateAdminNotes instant id s
                 (mkEnv t (None :: Some err :: fs) ans lg) in
      completion r = Normal tt /\
      ContactMessages.messages (state r) = ContactMessages.messages s /\
      ContactMessages.editingNotes (state r) = ContactMessages.editingNotes s /\
      log (env r) =
        lg ++ [Query (Supabase.messages_update
                        (ContactMessage.mkPartial None
                           (JSObject.get (ContactMessages.editingNotes s) id)) id);
               ToastSuccess "Notes updated";
               Query Supabase.messages_select;
               ConsoleError "Error fetching messages:" err;
               ToastError "Could not fetch messages"]) /\
   (forall (s : ContactMessages.State) id,
      let r := ContactMessages.deleteMessage instant id s
                 (mkEnv t (None :: Some err :: fs) (true :: ans) lg) in
      completion r = Normal tt /\
      ContactMessages.messages (state r) = ContactMessages.messages s /\
      ContactMessages.editingNotes (state r) = ContactMessages.editingNotes s /\
      log (env r) =
        lg ++ [ConfirmDialog "Er du sikker på at du vil slette denne meldingen?";
               Query (Supabase.messages_delete id);
               ToastSuccess "Melding slettet";
               Query Supabase.messages_select;
               ConsoleError "Error fetching messages:" err;
               ToastError "Could not fetch messages"])) /\
  (* no action ends in an exception *)
  ((forall (a : EventManager.Action) (s : EventManager.State) (e : Env),
      completion (EventManager.perform instant a s e) = Normal tt) /\
   (forall (encodeURIComponent : string -> string)
           (a : ContactMessages.Action) (s : ContactMessages.State) (e : Env),
      completion (ContactMessages.perform instant encodeURIComponent a s e) = Normal tt)).
Proof.
  split; [|split; [|split]].
  - repeat match goal with |- _ /\ _ => split end.
    + intros [evs ld ed fd] id newStatus. run. reflexivity.
    + intros [evs ld [editing|] fd]; run; reflexivity.
    + intros [evs ld ed fd] id. run. reflexivity.
    + intros [ms ld notes] id status. run. reflexivity.
    + intros [ms ld notes] id. run. reflexivity.
    + intros [ms ld notes] id. run. reflexivity.
  - repeat match goal with |- _ /\ _ => split end; run; reflexivity.
  - repeat match goal with |- _ /\ _ => split end.
    + intros [evs ld [editing|] fd] r; unfold r; clear r;
        repeat match goal with |- _ /\ _ => split end; run; reflexivity.
    + intros [evs ld ed fd] id r; unfold r; clear r;
        repeat match goal with |- _ /\ _ => split end; run; reflexivity.
    + intros [ms ld notes] id status r; unfold r; clear r;
        repeat match goal with |- _ /\ _ => split end; run; reflexivity.
    + intros [ms ld notes] id r; unfold r; clear r;
        repeat match goal with |- _ /\ _ => split end; run; reflexivity.
    + intros [ms ld notes] id r; unfold r; clear r;
        repeat match goal with |- _ /\ _ => split end; run; reflexivity.
  - split.
    + apply perform_normal.
    + intros. apply messages_perform_normal.
Qed.

(** C10, amended. In the contact-message manager a successful status update
    or notes save on one message is always followed by a refetch of all
    messages.  When the refetch succeeds, the list is the refetched one and
    the notes buffer is replaced by a fresh object built from it, whatever
    had been typed before for this or any other message; when the refetch
    fails, the list and the buffer stay as they were, unsaved edits
    included.  The fresh object holds, for each id other than [__proto__],
    the stored notes (or the empty text) of the refetched message with that
    id (the last one, should an id occur twice), and nothing under an id that
    no refetched message has; it has no own entry for [__proto__], because
    the assignment to that key is ignored. *)
Theorem C10_notes_after_refetch
    (id : string) (status : ContactMessage.MessageStatus)
    (s : ContactMessages.State) t fs ans lg :
  let r1 := ContactMessages.updateStatus instant id status s
              (mkEnv t (None :: fs) ans lg) in
  let r2 := ContactMessages.updateAdminNotes instant id s
              (mkEnv t (None :: fs) ans lg) in
  (* the refetch follows every successful update *)
  ((exists rest,
      log (env r1) =
      lg ++ Query (Supabase.messages_update
                     (ContactMessage.mkPartial (Some status) JSObject.undefined) id)
         :: ToastSuccess "Status updated"
         :: Query Supabase.messages_select :: rest) /\
   (exists rest,
      log (env r2) =
      lg ++ Query (Supabase.messages_update
                     (ContactMessage.mkPartial None
                        (JSObject.get (ContactMessages.editingNotes s) id)) id)
         :: ToastSuccess "Notes updated"
         :: Query Supabase.messages_select :: rest)) /\
  (* after a status update *)
  match hd None fs with
  | None =>
      ContactMessages.messages (state r1) =
        Supabase.select_messages instant (tables (env r1)) /\
      ContactMessages.editingNotes (state r1) =
        ContactMessages.notesState (Some (ContactMessages.messages (state r1)))
  | Some _ =>
      ContactMessages.messages (state r1) = ContactMessages.messages s /\
      ContactMessages.editingNotes (state r1) = ContactMessages.editingNotes s
  end /\
  (* after a notes save *)
  match hd None fs with
  | None =>
      ContactMessages.messages (state r2) =
        Supabase.select_messages instant (tables (env r2)) /\
      ContactMessages.editingNotes (state r2) =
        ContactMessages.notesState (Some (ContactMessages.messages (state r2)))
  | Some _ =>
      ContactMessages.messages (state r2) = ContactMessages.messages s /\
      ContactMessages.editingNotes (state r2) = ContactMessages.editingNotes s
  end /\
  (* what the fresh buffer holds *)
  (forall (data : list ContactMessage.t) (k : string),
     ContactMessages.notesState (Some data) !! k =
     if String.eqb k "__proto__" then None
     else ContactMessages.stored_note <$>
            last (List.filter (fun m => String.eqb (ContactMessage.id m) k) data)).
Proof.
  intros r1 r2. unfold r1, r2. clear r1 r2. destruct s as [ms ld notes].
  split; [split|split; [|split]].
  - destruct fs as [|[err|] fs']; eexists; run; reflexivity.
  - destruct fs as [|[err|] fs']; eexists; run; reflexivity.
  - destruct fs as [|[err|] fs']; cbn [hd]; split; run; reflexivity.
  - destruct fs as [|[err|] fs']; cbn [hd]; split; run; reflexivity.
  - apply notesState_lookup.
Qed.

End Claims.

(** C10, as stated, fails: a successful update reinitialises the notes
    buffer only when the refetch after it succeeds too.  When the refetch
    fails, the buffer is left alone and what was typed for another message
    is still there. *)
Lemma C10_refetch_counterexample :
  ~ (forall (instant : string -> Z) (id : string)
            (status : ContactMessage.MessageStatus)
            (s : ContactMessages.State) t fs ans lg,
       let r := ContactMessages.updateStatus instant id status s
                  (JS.mkEnv t (None :: fs) ans lg) in
       ContactMessages.editingNotes (JS.state r) =
       ContactMessages.notesState
         (Some (Supabase.select_messages instant (JS.tables (JS.env r))))).
Proof.
  intros H.
  pose (m1 := ContactMessage.mk "m1" "Kari" "kari@example.org" "Hei" "2025-06-01"
                None ContactMessage.new).
  pose (m2 := ContactMessage.mk "m2" "Ola" "ola@example.org" "Hallo" "2025-06-02"
                None ContactMessage.new).
  specialize (H (fun _ => 0) "m1" ContactMessage.completed
                (ContactMessages.mkState [m2; m1] false
                   (<["m2" := "ring tilbake"]> (<["m1" := ""]> ∅)))
                (Supabase.mkTables [] [m1; m2] 0) [Some "offline"] [] []).
  apply (f_equal (fun notes : gmap string string => notes !! "m2")) in H.
  vm_compute in H. discriminate H.
Qed.

(** * The claims about the membership form *)

Section MembershipClaims.

Import JS RunFacts MembershipForm.

(** C3, as stated, fails: the navigation is not unconditional.  When the
    promise of the store action rejects, the [await] throws and the handler
    stops there. *)
Lemma C3_navigation_counterexample :
  ~ (forall (action : StoreAction) (s : State) (e : Env),
       In (Navigate checkout_url) (log (env (handleSubmit action s e)))).
Proof.
  intros H.
  specialize (H (fun _ e => (Throw "insert failed", e))
                (mkState (mkFormData "Ola" "ola@example.no" "" "Hovden" "18-25" "")
                         false false)
                (mkEnv (Supabase.mkTables [] [] 0) [] [] [])).
  rewrite handleSubmit_run in H. cbn in H.
  destruct H as [H|[]]. discriminate H.
Qed.

(** C3, amended. On submission the handler hands the form data to the store
    action and waits for it.  When the action's promise resolves, whatever
    the action did or failed to do (its result is never looked at), the form
    fields are reset to empty, the success banner is set and the browser is
    sent to the fixed checkout URL, in this order.  When the promise rejects,
    the handler stops at the [await]: the fields keep their values, the
    banner is not set and there is no navigation. *)
Theorem C3_navigation_after_action
    (action : StoreAction) (s : State) (e e' : Env) (c : Completion unit) :
  action (formData s) (logged e PreventDefault) = (c, e') ->
  handleSubmit action s e =
  match c with
  | Normal _ =>
      (Normal tt, mkState emptyForm true true, logged e' (Navigate checkout_url))
  | Throw err =>
      (Throw err, mkState (formData s) (submitted s) true, e')
  end.
Proof.
  intros Hact. rewrite handleSubmit_run, Hact. destruct c; reflexivity.
Qed.

Lemma C3_navigation_after_action_witness :
  handleSubmit
    (fun _ e => (Normal tt, logged e (ToastError "Kunne ikke sende skjema")))
    (mkState (mkFormData "Ola" "ola@example.no" "" "Hovden" "18-25" "") false false)
    (mkEnv (Supabase.mkTables [] [] 0) [] [] []) =
  (Normal tt, mkState emptyForm true true,
   mkEnv (Supabase.mkTables [] [] 0) [] []
     [PreventDefault; ToastError "Kunne ikke sende skjema"; Navigate checkout_url]).
Proof.
  apply (C3_navigation_after_action
           (fun _ e => (Normal tt, logged e (ToastError "Kunne ikke sende skjema")))
           (mkState (mkFormData "Ola" "ola@example.no" "" "Hovden" "18-25" "") false false)
           (mkEnv (Supabase.mkTables [] [] 0) [] [] [])
           (mkEnv (Supabase.mkTables [] [] 0) [] []
              [PreventDefault; ToastError "Kunne ikke sende skjema"])
           (Normal tt)).
  reflexivity.
Defined.

(** C4, as stated, fails: with all four required fields non-empty but an
    e-mail value that is not an e-mail address, the form is not submitted. *)
Lemma C4_required_fields_counterexample :
  ~ (forall (action : StoreAction) (s : State) (e : Env),
       required_filled (formData s) -> submit action s e = handleSubmit action s e).
Proof.
  intros H.
  specialize (H (fun _ e => (Normal tt, e))
                (mkState (mkFormData "Ola" "ola" "" "Hovden" "18-25" "") false false)
                (mkEnv (Supabase.mkTables [] [] 0) [] [] [])).
  rewrite handleSubmit_run in H. cbn in H.
  assert (Hf : required_filled (mkFormData "Ola" "ola" "" "Hovden" "18-25" ""))
    by (unfold required_filled; cbn; repeat split; discriminate).
  specialize (H Hf). discriminate H.
Qed.

(** C4, amended. The form is not submitted (the handler is not reached, no
    store action runs, nothing changes) when one of name, e-mail, location
    and age group is empty.  It is submitted when all four are non-empty, the
    e-mail value is a valid e-mail address and no submission is under way,
    whatever phone and motivation hold. *)
Theorem C4_required_fields (action : StoreAction) (s : State) (e : Env) :
  (~ required_filled (formData s) -> submit action s e = (Normal tt, s, e)) /\
  (required_filled (formData s) ->
   valid_email (email (formData s)) = true ->
   submitting s = false ->
   submit action s e = handleSubmit action s e).
Proof.
  destruct s as [f sd sg]. cbn [formData submitting].
  pose proof (checkValidity_spec f) as Hv.
  split.
  - intros Hn. unfold submit. js_run.
    destruct sg; [reflexivity|].
    destruct (checkValidity f); [|reflexivity].
    exfalso. apply Hn, Hv. reflexivity.
  - intros Hf He Hs. subst sg. unfold submit. js_run.
    rewrite (proj2 Hv (conj Hf He)). reflexivity.
Qed.

Lemma C4_required_fields_witness :
  (submit (fun _ e => (Normal tt, e))
     (mkState (mkFormData "Ola" "ola@example.no" "" "" "18-25" "") false false)
     (mkEnv (Supabase.mkTables [] [] 0) [] [] []) =
   (Normal tt,
    mkState (mkFormData "Ola" "ola@example.no" "" "" "18-25" "") false false,
    mkEnv (Supabase.mkTables [] [] 0) [] [] [])) /\
  (submit (fun _ e => (Normal tt, e))
     (mkState (mkFormData "Ola" "ola@example.no" "" "Hovden" "18-25" "") false false)
     (mkEnv (Supabase.mkTables [] [] 0) [] [] []) =
   handleSubmit (fun _ e => (Normal tt, e))
     (mkState (mkFormData "Ola" "ola@example.no" "" "Hovden" "18-25" "") false false)
     (mkEnv (Supabase.mkTables [] [] 0) [] [] [])).
Proof.
  split.
  - apply (proj1 (C4_required_fields (fun _ e => (Normal tt, e))
             (mkState (mkFormData "Ola" "ola@example.no" "" "" "18-25" "") false false)
             (mkEnv (Supabase.mkTables [] [] 0) [] [] []))).
    intros (_ & _ & Hl & _). apply Hl. reflexivity.
  - apply (proj2 (C4_required_fields (fun _ e => (Normal tt, e))
             (mkState (mkFormData "Ola" "ola@example.no" "" "Hovden" "18-25" "") false false)
             (mkEnv (Supabase.mkTables [] [] 0) [] [] []))).
    + unfold required_filled; cbn; repeat split; discriminate.
    + reflexivity.
    + reflexivity.
Defined.

End MembershipClaims.


(** * Further properties of the code *)

(** ** The aspect classifier depends on the ratio only *)

Section EventImageMore.

Import EventImage.
Local Open Scope Z_scope.

Lemma cross_lt (a b w1 h1 w2 h2 : Z) :
  0 < h1 -> 0 < h2 -> w1 * h2 = w2 * h1 ->
  a * h1 < b * w1 -> a * h2 < b * w2.
Proof.
  intros H1 H2 Heq Hlt.
  apply (Z.mul_lt_mono_pos_r h1); [exact H1|].
  replace (b * w2 * h1) with (b * (w2 * h1)) by ring. rewrite <- Heq.
  replace (a * h2 * h1) with (a * h1 * h2) by ring.
  replace (b * (w1 * h2)) with (b * w1 * h2) by ring.
  apply Z.mul_lt_mono_pos_r; assumption.
Qed.

Lemma cross_ltb (a b w1 h1 w2 h2 : Z) :
  0 < h1 -> 0 < h2 -> w1 * h2 = w2 * h1 ->
  (a * h1 <? b * w1) = (a * h2 <? b * w2).
Proof.
  intros H1 H2 Heq.
  destruct (Z.ltb_spec (a * h1) (b * w1)) as [Hl|Hl];
    destruct (Z.ltb_spec (a * h2) (b * w2)) as [Hr|Hr]; try reflexivity; exfalso.
  - apply (Z.lt_irrefl (a * h2)). apply (Z.lt_le_trans _ (b * w2)); [|exact Hr].
    apply (cross_lt a b w1 h1 w2 h2); assumption.
  - apply (Z.lt_irrefl (a * h1)). apply (Z.lt_le_trans _ (b * w1)); [|exact Hl].
    apply (cross_lt a b w2 h2 w1 h1); [assumption|assumption|symmetry; assumption|assumption].
Qed.

(** X1. Two images with the same aspect ratio get the same bucket, whatever
    their sizes and whatever bucket each card showed before: rounding in the
    division never separates them. *)
Theorem same_ratio_same_bucket (img1 img2 : HTMLImageElement) (a1 a2 : Aspect) :
  0 < naturalWidth img1 < 2 ^ 32 -> 0 < naturalHeight img1 < 2 ^ 32 ->
  0 < naturalWidth img2 < 2 ^ 32 -> 0 < naturalHeight img2 < 2 ^ 32 ->
  naturalWidth img1 * naturalHeight img2 = naturalWidth img2 * naturalHeight img1 ->
  handleImageLoad img1 a1 = handleImageLoad img2 a2.
Proof.
  intros Hw1 Hh1 Hw2 Hh2 Heq.
  rewrite (handleImageLoad_positive img1 a1 Hw1 Hh1).
  rewrite (handleImageLoad_positive img2 a2 Hw2 Hh2).
  rewrite (cross_ltb 17 10 _ _ _ _ (proj1 Hh1) (proj1 Hh2) Heq).
  assert (Heq' : naturalHeight img1 * naturalWidth img2
                 = naturalHeight img2 * naturalWidth img1)
    by (rewrite (Z.mul_comm (naturalHeight img1)), (Z.mul_comm (naturalHeight img2));
        symmetry; exact Heq).
  rewrite (cross_ltb 5 4 _ _ _ _ (proj1 Hw1) (proj1 Hw2) Heq').
  reflexivity.
Qed.

Lemma same_ratio_same_bucket_witness :
  handleImageLoad (Build_HTMLImageElement 1920 1080) aspect_4_3 =
  handleImageLoad (Build_HTMLImageElement 1280 720) aspect_3_4.
Proof.
  apply (same_ratio_same_bucket (Build_HTMLImageElement 1920 1080)
           (Build_HTMLImageElement 1280 720) aspect_4_3 aspect_3_4);
    simpl; lia.
Defined.

End EventImageMore.

(** ** The festival page after its fetch *)

Section MusikkfestPageMore.

Import JS RunFacts MusikkfestPage.

Variable instant : string -> Z.

Lemma filter_nil_iff {A : Type} (f : A -> bool) (l : list A) :
  List.filter f l = [] <-> Forall (fun x => f x = false) l.
Proof.
  induction l as [|x l IH]; cbn [List.filter].
  - split; [constructor|reflexivity].
  - destruct (f x) eqn:Hx.
    + split; [discriminate|]. intros H. inversion H; subst. congruence.
    + rewrite IH. split; [intros H; constructor; assumption|].
      intros H. inversion H; assumption.
Qed.

(** X2. Once the fetch of the festival page has settled the page never shows
    the loading text again.  It shows the empty-programme text exactly when
    the request failed or returned no row, and a failed request leaves no
    error message behind: only the query is in the trace.  When rows came
    back, the grid is shown even if it holds no card, which happens exactly
    when every returned event is titled "Grendedag". *)
Theorem festival_view_after_fetch (e : Env) :
  let r := fetchMusikkfestEvents instant initial e in
  let rows := Supabase.select_events instant (Some "musikkfest") (tables e) in
  render (state r) =
    match hd None (faults e), rows with
    | Some _, _ => Empty
    | None, [] => Empty
    | None, _ :: _ =>
        Grid (List.filter
                (fun event => negb (String.eqb (Event.title event) "Grendedag")) rows)
    end /\
  log (env r) = log e ++ [Query (Supabase.events_select (Some "musikkfest"))] /\
  (render (state r) = Grid [] <->
   hd None (faults e) = None /\ rows <> [] /\
   Forall (fun event => Event.title event = "Grendedag") rows).
Proof.
  intros r rows.
  assert (Hview : render (state r) =
    match hd None (faults e), rows with
    | Some _, _ => Empty
    | None, [] => Empty
    | None, _ :: _ =>
        Grid (List.filter
                (fun event => negb (String.eqb (Event.title event) "Grendedag")) rows)
    end).
  { unfold r. rewrite fetchMusikkfestEvents_state. unfold render.
    cbn [loading events initial]. fold rows.
    destruct (hd None (faults e)); [reflexivity|].
    destruct rows; reflexivity. }
  split; [exact Hview|]. split.
  - unfold r. destruct e as [t fs ans lg].
    unfold fetchMusikkfestEvents, setEvents, setLoading.
    destruct fs as [|[err|] fs]; js_run; reflexivity.
  - rewrite Hview. destruct (hd None (faults e)) as [err|].
    + split; [discriminate|]. intros (H & _). discriminate H.
    + destruct rows as [|first rest] eqn:Hrows.
      * split; [discriminate|]. intros (_ & H & _). contradiction.
      * split.
        -- intros H. apply (f_equal cards) in H. cbn [cards] in H.
           apply filter_nil_iff in H.
           split; [reflexivity|]. split; [discriminate|].
           eapply List.Forall_impl; [|exact H]. intros event Hev. cbn beta in Hev.
           apply negb_false_iff, String.eqb_eq in Hev. exact Hev.
        -- intros (_ & _ & H). f_equal. apply filter_nil_iff.
           eapply List.Forall_impl; [|exact H]. intros event Hev. cbn beta in Hev.
           apply negb_false_iff, String.eqb_eq. exact Hev.
Qed.

(** What a description splits into at its first line feed. *)
Lemma first_line_split (s : string) :
  exists rest,
    s = first_line s +:+ rest /\
    (rest = "" \/ exists tail, rest = String "010"%char tail).
Proof.
  induction s as [|c s (rest & Heq & Hrest)]; cbn [first_line].
  - exists "". split; [reflexivity|left; reflexivity].
  - destruct (Ascii.eqb_spec c "010"%char) as [->|Hne].
    + exists (String "010"%char s). split; [reflexivity|right; eexists; reflexivity].
    + exists rest. split; [|exact Hrest].
      change (String c (first_line s) +:+ rest) with (String c (first_line s +:+ rest)).
      f_equal. exact Heq.
Qed.

Lemma first_line_no_feed (s : string) :
  ~ In "010"%char (list_ascii_of_string (first_line s)).
Proof.
  induction s as [|c s IH]; cbn [first_line]; [intros []|].
  destruct (Ascii.eqb_spec c "010"%char) as [->|Hne]; [intros []|].
  cbn. intros [H|H]; [congruence|apply IH, H].
Qed.

(** X3. The text a card shows for an event is the first line of its
    description: a prefix of the description that holds no line feed and is
    followed, in the description, by nothing or by a line feed (so a
    description without line feed, the empty one included, is shown whole).
    An event without description shows no text. *)
Theorem card_description_first_line (event : Event.t) :
  match Event.description event, card_description event with
  | None, shown => shown = None
  | Some description, Some shown =>
      (exists rest,
         description = shown +:+ rest /\
         (rest = "" \/ exists tail, rest = String "010"%char tail)) /\
      ~ In "010"%char (list_ascii_of_string shown)
  | Some _, None => False
  end.
Proof.
  unfold card_description. destruct (Event.description event) as [description|].
  - cbn. split; [apply first_line_split|apply first_line_no_feed].
  - reflexivity.
Qed.

End MusikkfestPageMore.

(** ** The admin event manager: sessions *)

Section EventManagerMore.

Import JS RunFacts EventManager.

Variable instant : string -> Z.

Ltac em_run :=
  unfold perform, handleSubmit, handleDelete, handleStatusChange,
    handleEdit, cancelEdit, onChange, fetchEvents,
    setEvents, setLoading, setEditingEvent, setFormData;
  js_run; cbv beta delta [Datatypes.id]; cbn [events loading editingEvent formData].

Lemma full_emptyForm : full emptyForm.
Proof. unfold full, emptyForm; cbn; repeat split; eexists; reflexivity. Qed.

Lemma full_changed (c : Change) (f : Event.Partial) : full f -> full (changed c f).
Proof.
  unfold full. intros (H1 & H2 & H3 & H4 & H5 & H6 & H7 & H8 & H9).
  destruct c; cbn; repeat split; try assumption; eexists; reflexivity.
Qed.

Lemma perform_full (a : Action) (s : State) (e : Env) :
  full (formData s) -> full (formData (state (perform instant a s e))).
Proof.
  intros Hf. destruct e as [t fs ans lg]. destruct s as [evs ld ed fd].
  cbn [formData] in Hf.
  destruct a as [| |id|id newStatus|event| |c].
  - destruct fs as [|[err|] fs]; em_run; exact Hf.
  - destruct ed as [editing|];
      destruct fs as [|[err|] [|[err'|] fs]]; em_run;
      first [exact Hf|exact full_emptyForm].
  - destruct ans as [|[|] ans];
      destruct fs as [|[err|] [|[err'|] fs]]; em_run; exact Hf.
  - destruct fs as [|[err|] fs]; em_run; exact Hf.
  - em_run. unfold full; cbn; repeat split; eexists; reflexivity.
  - em_run. exact full_emptyForm.
  - em_run. apply full_changed, Hf.
Qed.

Ltac carries Hf :=
  repeat match goal with
    | |- Forall _ [] => constructor
    | |- Forall _ (_ :: _) => constructor
    | |- carries_all_columns (Query (Supabase.events_update _ _)) =>
        first [left; exact Hf|right; eexists; reflexivity]
    | |- carries_all_columns (Query (Supabase.events_insert _)) =>
        eexists; split; [reflexivity|exact Hf]
    | |- carries_all_columns _ => exact I
    end.

Lemma perform_carries (a : Action) (s : State) (e : Env) :
  full (formData s) -> Forall carries_all_columns (log e) ->
  Forall carries_all_columns (log (env (perform instant a s e))).
Proof.
  intros Hf Hl. destruct e as [t fs ans lg]. destruct s as [evs ld ed fd].
  cbn [formData] in Hf. cbn [log] in Hl.
  assert (Hadd : forall new, Forall carries_all_columns new ->
                   Forall carries_all_columns (lg ++ new))
    by (intros new Hn; apply Forall_app; split; assumption).
  destruct a as [| |id|id newStatus|event| |c].
  - destruct fs as [|[err|] fs]; em_run; apply Hadd; carries Hf.
  - destruct ed as [editing|];
      destruct fs as [|[err|] [|[err'|] fs]]; em_run; apply Hadd; carries Hf.
  - destruct ans as [|[|] ans];
      destruct fs as [|[err|] [|[err'|] fs]]; em_run; apply Hadd; carries Hf.
  - destruct fs as [|[err|] fs]; em_run; apply Hadd; carries Hf.
  - em_run. exact Hl.
  - em_run. exact Hl.
  - em_run. exact Hl.
Qed.

(** X4. Whatever the admin does, the form object always holds all nine
    keys.  So every save, create or edit, sends all nine columns, and the
    only update with fewer is the status-only one of the inline selector. *)
Theorem saves_carry_all_columns (actions : list Action) t fs ans :
  let final := session instant actions initial (mkEnv t fs ans []) in
  full (formData (fst final)) /\ Forall carries_all_columns (log (snd final)).
Proof.
  assert (H : forall s e, full (formData s) -> Forall carries_all_columns (log e) ->
              full (formData (fst (session instant actions s e))) /\
              Forall carries_all_columns (log (snd (session instant actions s e)))).
  { induction actions as [|a rest IH]; intros s e Hs Hl; cbn [session].
    - split; assumption.
    - apply IH; [apply perform_full, Hs|apply perform_carries; assumption]. }
  apply H; [exact full_emptyForm|constructor].
Qed.

Lemma patch_form_of (event row : Event.t) :
  Supabase.patch_event
    (Event.mkPartial
       (Some (Event.title event)) (Some (Event.description event))
       (Some (Event.event_date event)) (Some (Event.location event))
       (Some (Event.status event))
       (Some (Some (or_empty (Event.image_url event))))
       (Some (Event.ticket_price event))
       (Some (Some (or_empty (Event.tickets_url event))))
       (Some (Some (or_empty (Event.festival event)))))
    row
  = overwritten event row.
Proof. destruct row; reflexivity. Qed.

Lemma patch_only_status (newStatus : Event.Status) (row : Event.t) :
  Supabase.patch_event (Event.only_status newStatus) row = Event.with_status row newStatus.
Proof. destruct row; reflexivity. Qed.

Lemma overwritten_id (event row : Event.t) :
  (overwritten event row = row) <->
  (Event.title row = Event.title event /\
   Event.description row = Event.description event /\
   Event.event_date row = Event.event_date event /\
   Event.location row = Event.location event /\
   Event.status row = Event.status event /\
   Event.image_url row = Some (or_empty (Event.image_url event)) /\
   Event.ticket_price row = Event.ticket_price event /\
   Event.tickets_url row = Some (or_empty (Event.tickets_url event)) /\
   Event.festival row = Some (or_empty (Event.festival event))).
Proof.
  destruct row; unfold overwritten; cbn. split.
  - intros H. injection H as -> -> -> -> -> -> -> -> ->. repeat split; reflexivity.
  - intros (-> & -> & -> & -> & -> & -> & -> & -> & ->). reflexivity.
Qed.

(** X5. Opening an event in the form and saving it without a change is not
    the identity on the stored row: every row with the event's id takes the
    columns of the listed copy, and a null [image_url], [tickets_url] or
    [festival] is stored as [''].  The stored copy of the event itself comes
    out unchanged exactly when none of the three was null.  After the save the
    form is empty again, the edit mode is left and the list is refetched. *)
Theorem edit_then_save (event : Event.t) (s : State) t ans lg :
  let final := session instant [Edit event; Submit] s (mkEnv t [] ans lg) in
  Supabase.events (tables (snd final)) =
    List.map (fun row => if String.eqb (Event.id row) (Event.id event)
                         then overwritten event row else row)
             (Supabase.events t) /\
  (overwritten event event = event <->
   is_Some (Event.image_url event) /\ is_Some (Event.tickets_url event) /\
   is_Some (Event.festival event)) /\
  editingEvent (fst final) = None /\
  formData (fst final) = emptyForm /\
  events (fst final) = Supabase.select_events instant None (tables (snd final)) /\
  exists body,
    log (snd final) =
      lg ++ [PreventDefault;
             Query (Supabase.events_update body (Event.id event));
             ToastSuccess "Arrangement oppdatert";
             Query (Supabase.events_select None)].
Proof.
  intros final. unfold final. clear final. destruct s as [evs ld ed fd].
  cbn [session]. em_run.
  split.
  { cbn [Supabase.update_events Supabase.events].
    apply List.map_ext. intros row.
    destruct (String.eqb (Event.id row) (Event.id event)); [|reflexivity].
    apply patch_form_of. }
  split.
  { rewrite overwritten_id. unfold or_empty, is_Some.
    destruct (Event.image_url event) as [i|], (Event.tickets_url event) as [u|],
      (Event.festival event) as [f|]; cbn; split;
      try (intros _; repeat split; eauto; fail);
      try (intros (_ & _ & _ & _ & _ & H1 & _ & H2 & H3); discriminate);
      try (intros ([? H1] & [? H2] & [? H3]); discriminate). }
  repeat split. eexists. reflexivity.
Qed.

(** X6. The inline status selector does not touch the open form.  When an
    event is open in the form, its status is changed through the selector and
    the form is then saved, the save writes the status the event had when it
    was opened: the stored rows end up exactly as after an unchanged edit, and
    the status chosen in between is lost. *)
Theorem save_overwrites_inline_status
    (event : Event.t) (newStatus : Event.Status) (s : State) t ans lg :
  let final :=
    session instant [Edit event; StatusChange (Event.id event) newStatus; Submit]
            s (mkEnv t [] ans lg) in
  Supabase.events (tables (snd final)) =
    List.map (fun row => if String.eqb (Event.id row) (Event.id event)
                         then overwritten event row else row)
             (Supabase.events t) /\
  Forall (fun row => Event.id row = Event.id event ->
                     Event.status row = Event.status event)
         (Supabase.events (tables (snd final))).
Proof.
  intros final.
  assert (Heq : Supabase.events (tables (snd final)) =
    List.map (fun row => if String.eqb (Event.id row) (Event.id event)
                         then overwritten event row else row)
             (Supabase.events t)).
  { unfold final. destruct s as [evs ld ed fd]. cbn [session]. em_run.
    cbn [Supabase.update_events Supabase.events]. rewrite List.map_map.
    apply List.map_ext. intros row.
    destruct (String.eqb (Event.id row) (Event.id event)) eqn:Hid.
    - rewrite patch_only_status.
      replace (Event.id (Event.with_status row newStatus)) with (Event.id row)
        by (destruct row; reflexivity).
      rewrite Hid. rewrite <- patch_form_of.
      destruct row; reflexivity.
    - rewrite Hid. reflexivity. }
  split; [exact Heq|]. rewrite Heq.
  apply List.Forall_forall. intros row Hin Hid.
  apply List.in_map_iff in Hin. destruct Hin as (row0 & Hrow & _).
  destruct (String.eqb_spec (Event.id row0) (Event.id event)) as [Heq0|Hne].
  - subst row. reflexivity.
  - subst row. contradiction.
Qed.

Lemma update_after_delete (body : Event.Partial) (id : string) (t : Supabase.Tables) :
  Supabase.update_events body id (Supabase.delete_events id t) = Supabase.delete_events id t.
Proof.
  unfold Supabase.update_events, Supabase.delete_events.
  cbn [Supabase.events Supabase.contact_messages Supabase.next_id]. f_equal.
  induction (Supabase.events t) as [|row rows IH]; cbn [List.filter List.map];
    [reflexivity|].
  destruct (String.eqb (Event.id row) id) eqn:Hid; cbn [negb List.map].
  - exact IH.
  - rewrite Hid. f_equal. exact IH.
Qed.

(** X7. Deleting an event does not close the form it is open in.  When an
    event is opened, then deleted, and the form is then saved, the save still
    sends an update for the deleted id and reports success, although it does
    not change any stored row: the table is the one the delete left. *)
Theorem save_after_delete (event : Event.t) (s : State) t ans lg :
  let final :=
    session instant [Edit event; Delete (Event.id event); Submit]
            s (mkEnv t [] (true :: ans) lg) in
  tables (snd final) = Supabase.delete_events (Event.id event) t /\
  Forall (fun row => Event.id row <> Event.id event)
         (Supabase.events (tables (snd final))) /\
  exists body,
    log (snd final) =
      lg ++ [ConfirmDialog "Er du sikker på at du vil slette dette arrangementet?";
             Query (Supabase.events_delete (Event.id event));
             ToastSuccess "Arrangement slettet";
             Query (Supabase.events_select None);
             PreventDefault;
             Query (Supabase.events_update body (Event.id event));
             ToastSuccess "Arrangement oppdatert";
             Query (Supabase.events_select None)].
Proof.
  intros final.
  assert (Heq : tables (snd final) = Supabase.delete_events (Event.id event) t).
  { unfold final. destruct s as [evs ld ed fd]. cbn [session]. em_run.
    apply update_after_delete. }
  split; [exact Heq|]. split.
  - rewrite Heq. cbn [Supabase.delete_events Supabase.events].
    apply List.Forall_forall. intros row Hin.
    apply List.filter_In in Hin. destruct Hin as [_ Hne].
    apply negb_true_iff in Hne. apply String.eqb_neq in Hne. exact Hne.
  - unfold final. destruct s as [evs ld ed fd]. cbn [session]. em_run.
    eexists. reflexivity.
Qed.

Lemma select_events_In (festival : option string) (t : Supabase.Tables) (event : Event.t) :
  In event (Supabase.select_events instant festival t) <->
  In event (match festival with
            | Some f => List.filter (Supabase.festival_is f) (Supabase.events t)
            | None => Supabase.events t
            end).
Proof.
  unfold Supabase.select_events, Supabase.order_by_event_date.
  rewrite <- !list_elem_of_In.
  rewrite (merge_sort_Permutation (Supabase.event_date_le instant)). reflexivity.
Qed.

(** X9. After a confirmed delete that succeeds and a refetch that succeeds,
    the list holds exactly the stored events whose id is not the deleted one:
    the deleted event is gone from the screen and every other one is still
    there. *)
Theorem delete_removes_from_list (id : string) (s : State) t fs ans lg :
  let r := handleDelete instant id s (mkEnv t (None :: None :: fs) (true :: ans) lg) in
  forall event : Event.t,
    In event (events (state r)) <->
    In event (Supabase.events t) /\ Event.id event <> id.
Proof.
  intros r event. unfold r. clear r. destruct s as [evs ld ed fd]. em_run.
  rewrite (select_events_In None). cbn [Supabase.delete_events Supabase.events].
  rewrite List.filter_In, negb_true_iff, String.eqb_neq. reflexivity.
Qed.

End EventManagerMore.

(** ** Status changes that overlap *)

Section OverlappingStatusChanges.

Import JS RunFacts EventManager.




End OverlappingStatusChanges.

(** ** From the admin manager to the festival page *)

Section CreatedEventFacts.

Import JS RunFacts.

Variable instant : string -> Z.

Ltac create_run :=
  unfold EventManager.handleSubmit, EventManager.fetchEvents,
    EventManager.setEvents, EventManager.setLoading,
    EventManager.setEditingEvent, EventManager.setFormData;
  js_run; cbv beta delta [Datatypes.id];
  cbn [EventManager.events EventManager.loading EventManager.editingEvent
       EventManager.formData].

(** X15. A save with no edit in progress creates one event from the form:
    when the insert and the refetch succeed, the stored events are the ones
    before followed by the new row, the manager lists the new row, and the
    festival page, which asks for the festival column only, gives the new
    row a card exactly when its festival is "musikkfest" and its title is not
    "Grendedag", whatever its status: a draft is shown as well. *)
Theorem created_event_is_listed (s : EventManager.State) t ans lg :
  EventManager.editingEvent s = None ->
  let admin := EventManager.handleSubmit instant s (mkEnv t [] ans lg) in
  let row := Supabase.new_event (pretty (Supabase.next_id t)) (EventManager.formData s) in
  let page := state (MusikkfestPage.fetchMusikkfestEvents instant MusikkfestPage.initial
                       (mkEnv (tables (env admin)) [] [] [])) in
  Supabase.events (tables (env admin)) = Supabase.events t ++ [row] /\
  log (env admin) =
    lg ++ [PreventDefault;
           Query (Supabase.events_insert [EventManager.formData s]);
           ToastSuccess "Arrangement opprettet";
           Query (Supabase.events_select None)] /\
  In row (EventManager.events (state admin)) /\
  (In row (MusikkfestPage.cards (MusikkfestPage.render page)) <->
   Event.festival row = Some "musikkfest" /\ Event.title row <> "Grendedag").
Proof.
  intros Hed admin row page.
  assert (Hadmin : tables (env admin) =
                   Supabase.insert_into_events [EventManager.formData s] t /\
                   log (env admin) =
                     lg ++ [PreventDefault;
                            Query (Supabase.events_insert [EventManager.formData s]);
                            ToastSuccess "Arrangement opprettet";
                            Query (Supabase.events_select None)] /\
                   EventManager.events (state admin) =
                     Supabase.select_events instant None
                       (Supabase.insert_into_events [EventManager.formData s] t)).
  { unfold admin. destruct s as [evs ld ed fd]. cbn in Hed. subst ed.
    create_run. repeat split. }
  destruct Hadmin as (Ht & Hlog & Hevs).
  assert (Hrow : In row (Supabase.events
                           (Supabase.insert_into_events [EventManager.formData s] t))).
  { cbn [Supabase.insert_into_events Supabase.events Supabase.insert_events].
    apply List.in_or_app. right. left. reflexivity. }
  split; [rewrite Ht; reflexivity|]. split; [exact Hlog|]. split.
  - rewrite Hevs. apply (select_events_In instant None). exact Hrow.
  - unfold page. rewrite fetchMusikkfestEvents_state. cbn [faults hd tables].
    rewrite cards_render by reflexivity. cbn [MusikkfestPage.events].
    rewrite (select_events_In instant (Some "musikkfest")), Ht, List.filter_In.
    unfold Supabase.festival_is.
    split.
    + intros [[_ Hf] Htitle]. split; [|exact Htitle].
      destruct (Event.festival row) as [g|]; [|discriminate].
      apply String.eqb_eq in Hf. congruence.
    + intros [Hf Htitle]. split; [|exact Htitle]. split; [exact Hrow|].
      rewrite Hf. reflexivity.
Qed.

End CreatedEventFacts.

(** ** The admin contact-message manager: sessions *)

Section ContactMessagesMore.

Import JS RunFacts ContactMessages.

Variable instant : string -> Z.
Variable encodeURIComponent : string -> string.

Ltac cm_run :=
  unfold perform, handleReply, updateStatus, updateAdminNotes, deleteMessage,
    onNotesChange, fetchMessages, setMessages, setLoading, setEditingNotes;
  js_run; cbv beta delta [Datatypes.id]; cbn [messages loading editingNotes].

#[local] Instance created_at_ge_total : Total (Supabase.created_at_ge instant).
Proof. intros a b. unfold Supabase.created_at_ge. lia. Qed.

#[local] Instance created_at_ge_trans : Transitive (Supabase.created_at_ge instant).
Proof. intros a b c. unfold Supabase.created_at_ge. lia. Qed.

Lemma select_messages_sorted (t : Supabase.Tables) :
  StronglySorted (Supabase.created_at_ge instant) (Supabase.select_messages instant t).
Proof.
  unfold Supabase.select_messages, Supabase.order_by_created_at_desc.
  apply StronglySorted_merge_sort; typeclasses eauto.
Qed.

Lemma select_messages_In (t : Supabase.Tables) (m : ContactMessage.t) :
  In m (Supabase.select_messages instant t) <-> In m (Supabase.contact_messages t).
Proof.
  unfold Supabase.select_messages, Supabase.order_by_created_at_desc.
  rewrite <- !list_elem_of_In.
  rewrite (merge_sort_Permutation (Supabase.created_at_ge instant)). reflexivity.
Qed.

(** After any action the list and the buffer are the ones before, or a
    freshly selected list with the buffer built from it, or the list before
    with one buffer entry written. *)
Lemma perform_cases (a : Action) (s : State) (e : Env) :
  let s' := state (perform instant encodeURIComponent a s e) in
  (messages s' = messages s /\ editingNotes s' = editingNotes s) \/
  (exists t, messages s' = Supabase.select_messages instant t /\
             editingNotes s' = notesState (Some (Supabase.select_messages instant t))) \/
  (exists id value, messages s' = messages s /\
                    editingNotes s' = <[id := value]> (editingNotes s)).
Proof.
  destruct e as [t fs ans lg]. destruct s as [ms ld notes].
  destruct a as [|id status|id|id|email name|id value].
  - destruct fs as [|[err|] fs]; cm_run; eauto.
  - destruct fs as [|[err|] [|[err'|] fs]]; cm_run; eauto.
  - destruct fs as [|[err|] [|[err'|] fs]]; cm_run; eauto.
  - destruct ans as [|[|] ans];
      destruct fs as [|[err|] [|[err'|] fs]]; cm_run; eauto.
  - cm_run; eauto.
  - cm_run; unfold JSObject.define; right; right; eauto.
Qed.

Lemma notesState_covers (data : list ContactMessage.t) (m : ContactMessage.t) :
  In m data -> ContactMessage.id m <> "__proto__" ->
  is_Some (notesState (Some data) !! ContactMessage.id m).
Proof.
  intros Hin Hid. rewrite notesState_lookup.
  destruct (String.eqb_spec (ContactMessage.id m) "__proto__") as [Heq|_];
    [contradiction|].
  destruct (last (List.filter
                    (fun m0 => String.eqb (ContactMessage.id m0) (ContactMessage.id m))
                    data)) as [m'|] eqn:Hlast.
  - eexists. reflexivity.
  - exfalso. apply last_None in Hlast.
    assert (Hm : In m (List.filter
                         (fun m0 => String.eqb (ContactMessage.id m0) (ContactMessage.id m))
                         data))
      by (apply List.filter_In; split; [exact Hin|apply String.eqb_refl]).
    rewrite Hlast in Hm. exact Hm.
Qed.

(** X10. Reading the notes buffer at the id of a listed message never gives
    [undefined] or a function, whatever the admin has done before and
    whichever requests failed: it gives a text, or, for a message whose id
    is [__proto__] and only for such a one, the prototype object.  So the
    notes save of a listed message always sends an [admin_notes] value. *)
Theorem listed_messages_have_notes (actions : list Action) (e : Env) :
  let final := fst (session instant encodeURIComponent actions initial e) in
  Forall (fun m =>
            (exists notes,
               JSObject.get (editingNotes final) (ContactMessage.id m) =
               JSObject.text notes) \/
            (ContactMessage.id m = "__proto__" /\
             JSObject.get (editingNotes final) (ContactMessage.id m) =
             JSObject.prototype))
         (messages final).
Proof.
  assert (H : forall s e0,
            (forall m0, In m0 (messages s) -> ContactMessage.id m0 <> "__proto__" ->
                        is_Some (editingNotes s !! ContactMessage.id m0)) ->
            forall m0,
              In m0 (messages (fst (session instant encodeURIComponent actions s e0))) ->
              ContactMessage.id m0 <> "__proto__" ->
              is_Some (editingNotes (fst (session instant encodeURIComponent actions s e0))
                         !! ContactMessage.id m0)).
  { induction actions as [|a rest IH]; intros s e0 Hs; cbn [session]; [exact Hs|].
    apply IH. intros m0.
    destruct (perform_cases a s e0) as [[-> ->]|[(t & -> & ->)|(id & value & -> & ->)]].
    - apply Hs.
    - apply notesState_covers.
    - intros Hin Hid. destruct (String.eqb_spec id (ContactMessage.id m0)) as [<-|Hne].
      + rewrite lookup_insert_eq. eexists. reflexivity.
      + rewrite lookup_insert_ne by exact Hne. apply Hs; assumption. }
  intros final. apply List.Forall_forall. intros m Hin.
  specialize (H initial e (fun m0 (Hm0 : In m0 []) => match Hm0 with end) m Hin).
  fold final in H. unfold JSObject.get.
  destruct (editingNotes final !! ContactMessage.id m) as [notes|] eqn:Hnotes.
  - left. eexists. reflexivity.
  - right. destruct (String.eqb_spec (ContactMessage.id m) "__proto__") as [Heq|Hne].
    + split; [exact Heq|reflexivity].
    + destruct (H Hne) as [notes Hsome]. discriminate Hsome.
Qed.

(** X12. The messages are listed newest first, whatever the admin has done
    before and whichever requests failed: each message is at least as recent
    as the one listed after it. *)
Theorem messages_newest_first (actions : list Action) (e : Env) :
  Sorted (Supabase.created_at_ge instant)
         (messages (fst (session instant encodeURIComponent actions initial e))).
Proof.
  apply StronglySorted_Sorted.
  assert (H : forall s e0,
            StronglySorted (Supabase.created_at_ge instant) (messages s) ->
            StronglySorted (Supabase.created_at_ge instant)
              (messages (fst (session instant encodeURIComponent actions s e0)))).
  { induction actions as [|a rest IH]; intros s e0 Hs; cbn [session]; [exact Hs|].
    apply IH.
    destruct (perform_cases a s e0) as [[-> _]|[(t & -> & _)|(id & value & -> & _)]].
    - exact Hs.
    - apply select_messages_sorted.
    - exact Hs. }
  apply H. constructor.
Qed.

(** X13. After a confirmed delete of a message that succeeds and a refetch
    that succeeds, the list holds exactly the stored messages with another id,
    and the notes buffer has no entry for the deleted id any more. *)
Theorem delete_removes_message (id : string) (s : State) t fs ans lg :
  let r := deleteMessage instant id s (mkEnv t (None :: None :: fs) (true :: ans) lg) in
  (forall m : ContactMessage.t,
     In m (messages (state r)) <->
     In m (Supabase.contact_messages t) /\ ContactMessage.id m <> id) /\
  editingNotes (state r) !! id = None.
Proof.
  intros r. unfold r. clear r. destruct s as [ms ld notes]. cm_run.
  assert (Hin : forall m : ContactMessage.t,
            In m (Supabase.select_messages instant (Supabase.delete_messages id t)) <->
            In m (Supabase.contact_messages t) /\ ContactMessage.id m <> id).
  { intros m. rewrite select_messages_In.
    cbn [Supabase.delete_messages Supabase.contact_messages].
    rewrite List.filter_In, negb_true_iff, String.eqb_neq. reflexivity. }
  split; [exact Hin|].
  rewrite notesState_lookup.
  destruct (String.eqb id "__proto__"); [reflexivity|].
  destruct (last (List.filter (fun m => String.eqb (ContactMessage.id m) id)
                    (Supabase.select_messages instant (Supabase.delete_messages id t))))
    as [m'|] eqn:Hlast; [|reflexivity].
  exfalso. apply last_Some_elem_of in Hlast. apply list_elem_of_In in Hlast.
  apply List.filter_In in Hlast. destruct Hlast as [Hm Hid].
  apply Hin in Hm. apply String.eqb_eq in Hid. destruct Hm as [_ Hne]. contradiction.
Qed.

(** X11. Notes typed into the field of a message and then saved reach the
    backend: when some stored message has the id, after typing [value], a
    save that succeeds and a refetch that succeeds, the update sent carries
    [value] (an empty text included), and every stored message with that id
    holds [value] as its notes.  The field is then given [value] again,
    unless the id is [__proto__]: the refetched buffer has no entry of its
    own for that key, and the field is given the prototype object. *)
Theorem typed_notes_are_saved (id value : string) (s : State) t ans lg :
  (exists m, In m (Supabase.contact_messages t) /\ ContactMessage.id m = id) ->
  let final := session instant encodeURIComponent
                 [NotesChange id value; UpdateAdminNotes id] s (mkEnv t [] ans lg) in
  log (snd final) =
    lg ++ [Query (Supabase.messages_update
                    (ContactMessage.mkPartial None (JSObject.text value)) id);
           ToastSuccess "Notes updated";
           Query Supabase.messages_select] /\
  Forall (fun m => ContactMessage.id m = id ->
                   ContactMessage.admin_notes m = Some value)
         (Supabase.contact_messages (tables (snd final))) /\
  notesField (fst final) id =
    if String.eqb id "__proto__" then JSObject.prototype else JSObject.text value.
Proof.
  intros (m0 & Hm0 & Hid0) final.
  assert (Hstored : forall m,
            In m (Supabase.contact_messages
                    (Supabase.update_messages
                       (ContactMessage.mkPartial None (JSObject.text value)) id t)) ->
            ContactMessage.id m = id -> ContactMessage.admin_notes m = Some value).
  { intros m Hin Hid. cbn [Supabase.update_messages Supabase.contact_messages] in Hin.
    apply List.in_map_iff in Hin. destruct Hin as (row & <- & _).
    destruct (String.eqb_spec (ContactMessage.id row) id) as [Heq|Hne].
    - reflexivity.
    - contradiction. }
  assert (Hget : forall notes : gmap string string,
            JSObject.get (JSObject.define id value notes) id = JSObject.text value).
  { intros notes. unfold JSObject.get, JSObject.define.
    rewrite lookup_insert_eq. reflexivity. }
  unfold final. clear final. destruct s as [ms ld notes]. cbn [session]. cm_run.
  rewrite Hget.
  split; [reflexivity|]. split.
  - apply List.Forall_forall. exact Hstored.
  - unfold notesField, JSObject.get. cbn [editingNotes]. rewrite notesState_lookup.
    destruct (String.eqb id "__proto__"); [reflexivity|].
    destruct (last (List.filter (fun m => String.eqb (ContactMessage.id m) id)
                (Supabase.select_messages instant
                   (Supabase.update_messages
                      (ContactMessage.mkPartial None (JSObject.text value)) id t))))
      as [m'|] eqn:Hlast.
    + apply last_Some_elem_of in Hlast. apply list_elem_of_In in Hlast.
      apply List.filter_In in Hlast. destruct Hlast as [Hm Hid].
      apply select_messages_In in Hm. apply String.eqb_eq in Hid.
      cbn [fmap option_fmap option_map]. unfold stored_note.
      rewrite (Hstored m' Hm Hid). cbn [or_empty default].
      unfold JSObject.or_else, JSObject.truthy. cbv beta delta [Datatypes.id].
      destruct (String.eqb value "") eqn:Hempty; [|reflexivity].
      apply String.eqb_eq in Hempty. rewrite Hempty. reflexivity.
    + exfalso. apply last_None in Hlast.
      assert (Hin : In (Supabase.patch_message
                          (ContactMessage.mkPartial None (JSObject.text value)) m0)
                       (List.filter (fun m => String.eqb (ContactMessage.id m) id)
                          (Supabase.select_messages instant
                             (Supabase.update_messages
                                (ContactMessage.mkPartial None (JSObject.text value))
                                id t)))).
      { apply List.filter_In. split.
        - apply select_messages_In.
          cbn [Supabase.update_messages Supabase.contact_messages].
          apply List.in_map_iff. exists m0. split; [|exact Hm0].
          rewrite Hid0, String.eqb_refl. reflexivity.
        - cbn. rewrite Hid0. apply String.eqb_refl. }
      rewrite Hlast in Hin. exact Hin.
Qed.

End ContactMessagesMore.

(** ** The membership form after a submission *)

Section MembershipFormMore.

Import JS RunFacts MembershipForm.

(** X14. Nothing ever sets [submitting] back to false.  Once the submit
    handler has run, whether the store action resolved or rejected, the
    button stays disabled and any further attempt to submit does nothing: no
    store action, no navigation, no change. *)
Theorem no_second_submission (action again : StoreAction) (s : State) (e : Env) :
  let r := handleSubmit action s e in
  submitting (state r) = true /\
  submit again (state r) (env r) = (Normal tt, state r, env r).
Proof.
  intros r. unfold r. clear r. rewrite handleSubmit_run.
  destruct (action (formData s) (logged e PreventDefault)) as [[[]|err] e'];
    (split; [reflexivity|]); unfold submit; js_run; reflexivity.
Qed.

End MembershipFormMore.

(** A backend that holds one message, whose notes the admin writes. *)
Lemma typed_notes_are_saved_witness :
  let instant := fun date : string => Z.of_nat (String.length date) in
  let encodeURIComponent := fun text : string => text in
  let m := ContactMessage.mk "m1" "Kari" "kari@example.org" "Hei" "2025-06-01"
             None ContactMessage.new in
  let t := Supabase.mkTables [] [m] 0 in
  let final := ContactMessages.session instant encodeURIComponent
                 [ContactMessages.NotesChange "m1" "ring tilbake";
                  ContactMessages.UpdateAdminNotes "m1"]
                 ContactMessages.initial (JS.mkEnv t [] [] []) in
  (exists m0, In m0 (Supabase.contact_messages t) /\ ContactMessage.id m0 = "m1") /\
  ContactMessages.notesField (fst final) "m1" = JSObject.text "ring tilbake".
Proof.
  intros instant encodeURIComponent m t final.
  assert (H : exists m0, In m0 (Supabase.contact_messages t) /\
                         ContactMessage.id m0 = "m1")
    by (exists m; split; [left; reflexivity|reflexivity]).
  split; [exact H|].
  exact (proj2 (proj2 (typed_notes_are_saved instant encodeURIComponent
                         "m1" "ring tilbake" ContactMessages.initial t [] [] H))).
Defined.

(** The admin fills in a festival concert and leaves it a draft. *)
Lemma created_event_is_listed_witness :
  let instant := fun date : string => Z.of_nat (String.length date) in
  let form := Event.mkPartial (Some "Konsert") (Some (Some "Kveldskonsert"))
                (Some "2025-08-02") (Some "Hovden") (Some Event.draft)
                (Some (Some "")) (Some None) (Some (Some ""))
                (Some (Some "musikkfest")) in
  let s := EventManager.mkState [] false None form in
  let t := Supabase.mkTables [] [] 0 in
  let admin := EventManager.handleSubmit instant s (JS.mkEnv t [] [] []) in
  let row := Supabase.new_event (pretty (Supabase.next_id t)) form in
  let page := JS.state (MusikkfestPage.fetchMusikkfestEvents instant
                          MusikkfestPage.initial
                          (JS.mkEnv (JS.tables (JS.env admin)) [] [] [])) in
  Event.status row = Event.draft /\
  In row (MusikkfestPage.cards (MusikkfestPage.render page)).
Proof.
  intros instant form s t admin row page. split; [reflexivity|].
  apply (proj2 (proj2 (proj2 (created_event_is_listed instant s t [] [] eq_refl)))).
  split; [reflexivity|discriminate].
Defined.
